(** * A shallow embedding of [_HTTPClient]
    (azure/servicemanagement/_http/httpclient.py)

    The development follows the layout of the Python class: byte strings
    and the few [str] methods the client relies on, the query normaliser
    [_update_request_uri_query], the transport selection of
    [get_connection], the header and body writers, and the request loop
    [perform_request].  Text and bytes are both modelled by [string] (a
    sequence of 8-bit characters).  The standard library is the one of
    CPython 3.9: [urllib.parse], [int], and a [base64] module that has no
    [encodestring]. *)

From Stdlib Require Import String Ascii List ZArith Lia Bool Arith.
From Stdlib Require Import Numbers.DecimalString.
Import ListNotations.

Local Open Scope list_scope.
Local Open Scope string_scope.

(** ** Python [str] methods used by the client *)

Module PyStr.

(** [c in s] for a one-character [c]. *)
Fixpoint contains (c : ascii) (s : string) : bool :=
  match s with
  | EmptyString => false
  | String x r => if Ascii.eqb x c then true else contains c r
  end.

(** [s.partition(c)]: text before the first [c], the separator, the rest;
    [(s, '', '')] when [c] does not occur. *)
Fixpoint partition (c : ascii) (s : string) : string * string * string :=
  match s with
  | EmptyString => (EmptyString, EmptyString, EmptyString)
  | String x r =>
      if Ascii.eqb x c then (EmptyString, String c EmptyString, r)
      else let '(a, m, b) := partition c r in (String x a, m, b)
  end.

(** Split at the last occurrence of [c], if there is one. *)
Fixpoint rsplit1 (c : ascii) (s : string) : option (string * string) :=
  match s with
  | EmptyString => None
  | String x r =>
      match rsplit1 c r with
      | Some (a, b) => Some (String x a, b)
      | None => if Ascii.eqb x c then Some (EmptyString, r) else None
      end
  end.

(** [s.rpartition(c)]: [('', '', s)] when [c] does not occur. *)
Definition rpartition (c : ascii) (s : string) : string * string * string :=
  match rsplit1 c s with
  | Some (a, b) => (a, String c EmptyString, b)
  | None => (EmptyString, EmptyString, s)
  end.

(** [s.split(c)]: never empty, [''.split(c) = ['']]. *)
Fixpoint split (c : ascii) (s : string) : list string :=
  match s with
  | EmptyString => [EmptyString]
  | String x r =>
      if Ascii.eqb x c then EmptyString :: split c r
      else match split c r with
           | h :: t => String x h :: t
           | [] => [String x EmptyString]
           end
  end.

(** [sep.join(l)] for a one-character separator. *)
Fixpoint join (c : ascii) (l : list string) : string :=
  match l with
  | [] => EmptyString
  | [s] => s
  | s :: r => s ++ String c (join c r)
  end.

(** [s[:-1]] *)
Fixpoint drop_last (s : string) : string :=
  match s with
  | EmptyString => EmptyString
  | String _ EmptyString => EmptyString
  | String x r => String x (drop_last r)
  end.

(** [s[:n]] *)
Fixpoint take (n : nat) (s : string) : string :=
  match n, s with
  | S k, String x r => String x (take k r)
  | _, _ => EmptyString
  end.

Definition is_upper (c : ascii) : bool :=
  let n := nat_of_ascii c in (65 <=? n)%nat && (n <=? 90)%nat.
Definition is_lower (c : ascii) : bool :=
  let n := nat_of_ascii c in (97 <=? n)%nat && (n <=? 122)%nat.
Definition is_digit (c : ascii) : bool :=
  let n := nat_of_ascii c in (48 <=? n)%nat && (n <=? 57)%nat.

Definition lower_char (c : ascii) : ascii :=
  if is_upper c then ascii_of_nat (nat_of_ascii c + 32) else c.

(** [s.lower()] on ASCII text (header names and URL schemes are ASCII). *)
Fixpoint lower (s : string) : string :=
  match s with
  | EmptyString => EmptyString
  | String x r => String (lower_char x) (lower r)
  end.

(** [s.startswith(p)] *)
Definition startswith (p s : string) : bool := String.prefix p s.

(** Truth value of a [str]: the empty string is falsy. *)
Definition nonempty (s : string) : bool :=
  match s with EmptyString => false | _ => true end.

(** Truth value of a [str]-or-[None] attribute. *)
Definition truthy (v : option string) : bool :=
  match v with Some s => nonempty s | None => false end.

(** [str(n)] for an [int]. *)
Definition str_of_Z (n : Z) : string := NilZero.string_of_int (Z.to_int n).

End PyStr.
Import PyStr.

(** ** [urllib.parse.quote]

    [quote(s, safe)] over the UTF-8 bytes of [s]: letters, digits and
    [_.-~] are always kept, so are the bytes listed in [safe]; every other
    byte becomes [%XX] with upper-case hexadecimal digits. *)

Module Quote.

Definition hex_digit (n : nat) : ascii :=
  match n with
  | 0 => "0" | 1 => "1" | 2 => "2" | 3 => "3" | 4 => "4" | 5 => "5"
  | 6 => "6" | 7 => "7" | 8 => "8" | 9 => "9" | 10 => "A" | 11 => "B"
  | 12 => "C" | 13 => "D" | 14 => "E" | _ => "F"
  end%char.

Definition always_safe (c : ascii) : bool :=
  is_upper c || is_lower c || is_digit c || contains c "_.-~".

Definition quote_byte (safe : string) (c : ascii) : string :=
  if always_safe c || contains c safe then String c EmptyString
  else let n := nat_of_ascii c in
       String "%" (String (hex_digit (n / 16)) (String (hex_digit (n mod 16)) EmptyString)).

Fixpoint url_quote (s safe : string) : string :=
  match s with
  | EmptyString => EmptyString
  | String x r => quote_byte safe x ++ url_quote r safe
  end.

End Quote.
Import Quote.

(** The safe set of the client: [/()$=',] *)
Definition SAFE : string := "/()$=',".

(** ** Data model *)

(** A (name, value) pair of a query or of the request headers; the value may
    be [None]. *)
Definition pair_t : Type := string * option string.

Record Request := mkRequest {
  req_method : string;
  req_host : option string;   (* a [str]; [None] only after a redirect to a URL without host *)
  req_path : string;
  req_query : list pair_t;
  req_headers : list pair_t;
  req_body : option string;
  req_protocol_override : option string
}.

Definition set_path (p : string) (r : Request) : Request :=
  mkRequest (req_method r) (req_host r) p (req_query r) (req_headers r)
            (req_body r) (req_protocol_override r).
Definition set_query (q : list pair_t) (r : Request) : Request :=
  mkRequest (req_method r) (req_host r) (req_path r) q (req_headers r)
            (req_body r) (req_protocol_override r).
Definition set_host (h : option string) (r : Request) : Request :=
  mkRequest (req_method r) h (req_path r) (req_query r) (req_headers r)
            (req_body r) (req_protocol_override r).

(** ** The query normaliser *)

(** Lines 214-218: the [name=value] items of the inline query string; items
    without [=] are skipped. *)
Definition inline_pairs (query_string : string) : list pair_t :=
  flat_map (fun query =>
              if contains "=" query
              then let '(name, _, value) := partition "=" query in [(name, Some value)]
              else [])
           (split "&" query_string).

(** Lines 225-227: one round of the loop that re-appends the query. *)
Definition append_pair (acc : string) (p : pair_t) : string :=
  match snd p with
  | Some value => acc ++ fst p ++ "=" ++ url_quote value SAFE ++ "&"
  | None => acc
  end.

Definition _update_request_uri_query (request : Request)
  : Request * (string * list pair_t) :=
  let request1 :=
    if contains "?" (req_path request) then
      let '(p, _, query_string) := partition "?" (req_path request) in
      let request' := set_path p request in
      if nonempty query_string
      then set_query (req_query request' ++ inline_pairs query_string)%list request'
      else request'
    else request in
  let request2 := set_path (url_quote (req_path request1) SAFE) request1 in
  let request3 :=
    match req_query request2 with
    | [] => request2
    | _ :: _ =>
        set_path (drop_last (fold_left append_pair (req_query request2)
                                       (req_path request2 ++ "?")))
                 request2
    end in
  (request3, (req_path request3, req_query request3)).



(** ** Exceptions, ports and the client configuration *)

(** The points of one request/response cycle at which a transport may fail. *)
Inductive stage :=
| AtPutRequest | AtProxyCredentials | AtEndHeaders | AtSend | AtGetResponse | AtRead.

Inductive exn :=
| HTTPError (status : Z) (message : string)
            (respheaders : list (string * string)) (respbody : option string)
| TransportError (at_stage : stage)
| KeyError (key : string)
| ValueError
| TypeError
| AttributeError.

(** What [get_connection] passes to [int]: the default port (an [int]), the
    text after the last [:] of the host, or the [proxy_port] attribute. *)
Inductive port_val :=
| PortInt (n : Z)
| PortStr (s : string)
| PortNone.

Definition digit_val (c : ascii) : option Z :=
  if is_digit c then Some (Z.of_nat (nat_of_ascii c - 48)) else None.

(** The blanks that [int] strips from both ends of its argument. *)
Definition is_space (c : ascii) : bool :=
  let n := nat_of_ascii c in ((9 <=? n)%nat && (n <=? 13)%nat) || (n =? 32)%nat.

Fixpoint lstrip (s : string) : string :=
  match s with
  | EmptyString => EmptyString
  | String c r => if is_space c then lstrip r else s
  end.

Fixpoint rstrip (s : string) : string :=
  match s with
  | EmptyString => EmptyString
  | String c r =>
      match rstrip r with
      | EmptyString => if is_space c then EmptyString else String c EmptyString
      | r' => String c r'
      end
  end.

(** The digits after the first one: single underscores may stand between
    digits; [pending] tells that an underscore was just read. *)
Fixpoint digits_val (pending : bool) (acc : Z) (s : string) : option Z :=
  match s with
  | EmptyString => if pending then None else Some acc
  | String c r =>
      if Ascii.eqb c "_"
      then if pending then None else digits_val true acc r
      else match digit_val c with
           | Some d => digits_val false (acc * 10 + d) r
           | None => None
           end
  end.

Definition unsigned_val (s : string) : option Z :=
  match s with
  | EmptyString => None
  | String c r =>
      match digit_val c with
      | Some d => digits_val false d r
      | None => None
      end
  end.

(** [int(s)] for ASCII text: blanks around, an optional sign, then decimal
    digits with single underscores between them.  Text with other characters
    is malformed; the digits and blanks beyond ASCII that [int] also takes
    are not modelled, and no statement below relies on their rejection. *)
Definition int_of_str (s : string) : option Z :=
  match rstrip (lstrip s) with
  | EmptyString => None
  | String c r =>
      if Ascii.eqb c "-" then option_map Z.opp (unsigned_val r)
      else if Ascii.eqb c "+" then unsigned_val r
      else unsigned_val (String c r)
  end.

Definition py_int (p : port_val) : exn + Z :=
  match p with
  | PortInt n => inr n
  | PortStr s => match int_of_str s with Some n => inr n | None => inl ValueError end
  | PortNone => inl TypeError
  end.

Definition HTTP_PORT : Z := 80.
Definition HTTPS_PORT : Z := 443.

(** An injected [requests] session: an opaque handle. *)
Inductive Session := session_handle (id : nat).

Record _HTTPClient := mkClient {
  cert_file : option string;
  protocol : string;
  proxy_host : option string;
  proxy_port : port_val;
  proxy_user : option string;
  proxy_password : option string;
  request_session : option Session;
  timeout : Z;
  user_agent : string;
  use_httplib : bool
}.

(** Lines 81-102; [is_windows] is [sys.platform.lower().startswith('win')]
    and [isfile] is [os.path.isfile]. *)
Definition should_use_httplib (is_windows : bool) (isfile : string -> bool)
                              (cert : option string) : bool :=
  match cert with
  | Some f => if is_windows && nonempty f then isfile f else true
  | None => true
  end.

(** [__init__], lines 66-79. *)
Definition init_client (is_windows : bool) (isfile : string -> bool)
    (cert : option string) (proto : string) (session : option Session)
    (tmo : Z) (agent : string) : _HTTPClient :=
  mkClient cert proto None PortNone None None session tmo agent
           (match session with
            | Some _ => true
            | None => should_use_httplib is_windows isfile cert
            end).

(** [set_proxy], lines 104-120. *)
Definition set_proxy (self : _HTTPClient) (host : option string) (port : port_val)
                     (user password : option string) : _HTTPClient :=
  mkClient (cert_file self) (protocol self) host port user password
           (request_session self) (timeout self) (user_agent self)
           (use_httplib self).

(** ** Transport selection *)

(** Lines 124-126 and 132-134: the override when it is truthy, else the
    client's protocol, lower-cased. *)
Definition effective_protocol (self : _HTTPClient) (request : Request) : string :=
  lower (if truthy (req_protocol_override request)
         then match req_protocol_override request with
              | Some p => p
              | None => protocol self
              end
         else protocol self).

Definition get_uri (self : _HTTPClient) (request : Request) : exn + string :=
  let protocol := effective_protocol self request in
  let port := if String.eqb protocol "http" then HTTP_PORT else HTTPS_PORT in
  match req_host request with
  | Some host => inr (protocol ++ "://" ++ host ++ ":" ++ str_of_Z port ++ req_path request)
  | None => inl TypeError
  end.

(** The connection classes of the three transports, with the arguments
    their constructors receive. *)
Inductive conn_class :=
| RequestsConnection (target_host : option string) (protocol : string)
                     (session : Session) (timeout : Z)
| WinHTTPConnection (target_host : option string) (cert_file : option string)
                    (protocol : string) (timeout : Z)
| HTTPConnection (host : string) (port : Z) (timeout : Z)
| HTTPSConnection (host : string) (port : Z) (cert_file : option string) (timeout : Z).

(** The argument of [set_tunnel]; [tunnel_auth] is the text [user:password]
    that the [Proxy-Authorization: Basic] header carries base64-encoded. *)
Record Tunnel := mkTunnel {
  tunnel_host : string;
  tunnel_port : Z;
  tunnel_auth : option string
}.

Record Connection := mkConnection {
  conn_class_of : conn_class;
  conn_tunnel : option Tunnel
}.

(** The proxy host when it is set (truthy). *)
Definition configured_proxy (self : _HTTPClient) : option string :=
  match proxy_host self with
  | Some h => if nonempty h then Some h else None
  | None => None
  end.

Definition text_of (v : option string) : string :=
  match v with Some s => s | None => "None" end.

(** Lines 171-175.  With both credentials set line 173 calls
    [base64.encodestring], which the [base64] module does not have: the
    attribute lookup raises and no header is built. *)
Definition tunnel_headers (self : _HTTPClient) : exn + option string :=
  if truthy (proxy_user self) && truthy (proxy_password self)
  then inl AttributeError
  else inr None.

(** Lines 138-168: the connection object and, when a proxy is set, the
    values of the local variables [proxy_host] and [proxy_port]. *)
Definition select_connection (self : _HTTPClient) (request : Request)
  : exn + (conn_class * option (string * port_val)) :=
  let protocol := effective_protocol self request in
  let target_port :=
    PortInt (if String.eqb protocol "http" then HTTP_PORT else HTTPS_PORT) in
  let via := option_map (fun h => (h, proxy_port self)) (configured_proxy self) in
  match request_session self with
  | Some session =>
      inr (RequestsConnection (req_host request) protocol session (timeout self), via)
  | None =>
      if negb (use_httplib self) then
        inr (WinHTTPConnection (req_host request) (cert_file self) protocol
                               (timeout self), via)
      else
        match req_host request with
        | None => inl TypeError
        | Some target_host =>
            let '(target_host, target_port) :=
              if contains ":" target_host
              then let '(h, _, p) := rpartition ":" target_host in (h, PortStr p)
              else (target_host, target_port) in
            let '(host, port, tunnel) :=
              match configured_proxy self with
              | Some ph => (ph, proxy_port self, Some (target_host, target_port))
              | None => (target_host, target_port, None)
              end in
            match py_int port with
            | inl e => inl e
            | inr n =>
                inr (if String.eqb (lower protocol) "http"
                     then HTTPConnection host n (timeout self)
                     else HTTPSConnection host n (cert_file self) (timeout self),
                     tunnel)
            end
        end
  end.

Definition get_connection (self : _HTTPClient) (request : Request)
  : exn + Connection :=
  match select_connection self request with
  | inl e => inl e
  | inr (connection, None) => inr (mkConnection connection None)
  | inr (connection, Some (proxy_host, proxy_port)) =>
      match tunnel_headers self with
      | inl e => inl e
      | inr headers =>
          match py_int proxy_port with
          | inl e => inl e
          | inr n => inr (mkConnection connection
                                        (Some (mkTunnel proxy_host n headers)))
          end
      end
  end.

(** ** Writing the request headers *)

(** [connection.putheader(name, value)] stages the line [name: value] in the
    outgoing header buffer. *)
Definition putheader (buffer : list string) (name value : string) : list string :=
  app buffer [name ++ ": " ++ value].

(** [list.remove(x)]: drops the first element equal to [x]. *)
Fixpoint list_remove (x : string) (l : list string) : list string :=
  match l with
  | [] => []
  | y :: r => if String.eqb y x then r else y :: list_remove x r
  end.

Definition is_host_line (line : string) : bool := startswith "Host: " line.

(** Lines 183-185.  The [for] loop walks the list by position while its
    body removes elements from it: [idx] is the position of the iterator and
    the loop stops when it runs past the end of the (shrinking) list. *)
Fixpoint strip_host_loop (fuel idx : nat) (buffer : list string) : list string :=
  match fuel with
  | O => buffer
  | S fuel' =>
      match nth_error buffer idx with
      | None => buffer
      | Some i =>
          if is_host_line i
          then strip_host_loop fuel' (S idx) (list_remove i buffer)
          else strip_host_loop fuel' (S idx) buffer
      end
  end.

(** The loop visits at most [length buffer] positions. *)
Definition strip_host_lines (buffer : list string) : list string :=
  strip_host_loop (length buffer) 0 buffer.

(** ["{0}:{1}".format(connection._tunnel_host, connection._tunnel_port)] *)
Definition tunnel_target (connection : Connection) : string :=
  match conn_tunnel connection with
  | Some t => tunnel_host t ++ ":" ++ str_of_Z (tunnel_port t)
  | None => "None:None"
  end.

Definition is_none {A : Type} (o : option A) : bool :=
  match o with None => true | Some _ => false end.

(** Lines 190-192, one round. *)
Definition put_request_header (buffer : list string) (h : pair_t) : list string :=
  match snd h with
  | Some value => if nonempty value then putheader buffer (fst h) value else buffer
  | None => buffer
  end.

(** Lines 181-194: the header buffer as it stands when [endheaders] is
    called. *)
Definition staged_headers (self : _HTTPClient) (connection : Connection)
    (buffer : list string) (request_headers : list pair_t) : list string :=
  let buffer1 :=
    if use_httplib self then
      if truthy (proxy_host self) && is_none (request_session self)
      then putheader (strip_host_lines buffer) "Host" (tunnel_target connection)
      else buffer
    else buffer in
  let buffer2 := fold_left put_request_header request_headers buffer1 in
  putheader buffer2 "User-Agent" (user_agent self).

(** ** Responses and [urlparse] *)

Record HTTPResponse := mkResponse {
  status : Z;
  message : string;
  headers : list (string * string);
  body : option string
}.

(** What the transport hands back from [getresponse]: [resp_stream] is the
    body as it sits on the wire, [resp_length] the declared length. *)
Record RawResponse := mkRaw {
  resp_status : Z;
  resp_reason : string;
  resp_headers : list (string * string);
  resp_length : option Z;
  resp_stream : string
}.

(** [resp.read()] returns the rest of the stream, [resp.read(n)] at most its
    first [n] bytes. *)
Definition resp_read (resp : RawResponse) (amt : option Z) : string :=
  match amt with
  | None => resp_stream resp
  | Some n => take (Z.to_nat n) (resp_stream resp)
  end.

(** [dict(pairs)[key]]: a later pair overrides an earlier one with the same
    key. *)
Fixpoint dict_get (key : string) (pairs : list (string * string)) : option string :=
  match pairs with
  | [] => None
  | (k, v) :: r =>
      match dict_get key r with
      | Some v' => Some v'
      | None => if String.eqb k key then Some v else None
      end
  end.

Module UrlParse.

(** [urllib.parse.urlparse] as far as the client uses it: the [hostname]
    and [path] attributes of the result.  The model follows [urlsplit] of
    CPython 3.9 without its removal of control characters. *)

Record ParseResult := mkParse {
  scheme : string;
  netloc : string;
  path : string;
  params : string;
  query : string;
  fragment : string
}.

Definition scheme_char (c : ascii) : bool :=
  is_upper c || is_lower c || is_digit c || contains c "+-.".

Fixpoint all_chars (f : ascii -> bool) (s : string) : bool :=
  match s with
  | EmptyString => true
  | String c r => f c && all_chars f r
  end.

(** The text before the first of [/?#] and the text from there on. *)
Fixpoint splitnetloc (s : string) : string * string :=
  match s with
  | EmptyString => (EmptyString, EmptyString)
  | String c r =>
      if contains c "/?#" then (EmptyString, s)
      else let '(a, b) := splitnetloc r in (String c a, b)
  end.

Definition uses_params : list string :=
  [EmptyString; "ftp"; "hdl"; "prospero"; "http"; "imap"; "https"; "shttp"; "rtsp";
   "rtspu"; "sip"; "sips"; "mms"; "sftp"; "tel"].

(** [_splitparams]: the parameters start at the first [;] of the last path
    segment. *)
Definition splitparams (url : string) : string * string :=
  match rsplit1 "/" url with
  | Some (dir, last) =>
      if contains ";" last
      then let '(a, _, b) := partition ";" last in (dir ++ "/" ++ a, b)
      else (url, EmptyString)
  | None => let '(a, _, b) := partition ";" url in (a, b)
  end.

Definition urlparse (url : string) : exn + ParseResult :=
  let '(scheme, url) :=
    let '(s, colon, rest) := partition ":" url in
    if nonempty colon && nonempty s && all_chars scheme_char s
    then (lower s, rest) else (EmptyString, url) in
  let '(netloc, url) :=
    match url with
    | String "/" (String "/" r) => splitnetloc r
    | _ => (EmptyString, url)
    end in
  if xorb (contains "[" netloc) (contains "]" netloc) then inl ValueError
  else
    let '(url, _, fragment) := partition "#" url in
    let '(url, _, query) := partition "?" url in
    let '(url, params) :=
      if existsb (String.eqb scheme) uses_params && contains ";" url
      then splitparams url else (url, EmptyString) in
    inr (mkParse scheme netloc url params query fragment).

(** The [hostname] attribute: user information, brackets and port removed,
    lower-cased up to an IPv6 zone; [None] when empty. *)
Definition hostname (u : ParseResult) : option string :=
  let '(_, _, hostinfo) := rpartition "@" (netloc u) in
  let '(_, have_open_br, bracketed) := partition "[" hostinfo in
  let host :=
    if nonempty have_open_br
    then let '(h, _, _) := partition "]" bracketed in h
    else let '(h, _, _) := partition ":" hostinfo in h in
  if nonempty host
  then let '(h, percent, zone) := partition "%" host in
       Some (lower h ++ percent ++ zone)
  else None.

End UrlParse.

(** ** The transports as black boxes *)

(** What the far end does to one connection: the point at which the
    transport fails, if any, and the response it delivers otherwise. *)
Record hop_behaviour := mkBehaviour {
  hb_fail : option stage;
  hb_response : RawResponse
}.

(** [tr_putrequest] gives the header buffer a connection holds after
    [putrequest(method, path)] (the socket transport stages the request line
    and its default headers there); [tr_behaviour c request] tells how the
    [c]-th connection fares when it carries [request]. *)
Record Transport := mkTransport {
  tr_putrequest : Connection -> string -> string -> list string;
  tr_behaviour : nat -> Request -> hop_behaviour
}.

(** The calls made on connections, in program order. *)
Inductive event :=
| EvOpen (c : nat) (connection : Connection)
| EvPutRequest (c : nat) (method path : string)
| EvSetProxyCredentials (c : nat) (user password : option string)
| EvEndHeaders (c : nat) (buffer : list string)
| EvSend (c : nat) (data : option string)
| EvGetResponse (c : nat)
| EvRead (c : nat) (amt : option Z)
| EvClose (c : nat).

Definition stage_eqb (a b : stage) : bool :=
  match a, b with
  | AtPutRequest, AtPutRequest | AtProxyCredentials, AtProxyCredentials
  | AtEndHeaders, AtEndHeaders | AtSend, AtSend
  | AtGetResponse, AtGetResponse | AtRead, AtRead => true
  | _, _ => false
  end.

Definition fails_at (b : hop_behaviour) (s : stage) : bool :=
  match hb_fail b with
  | Some s' => stage_eqb s' s
  | None => false
  end.

(** Code that logs the calls it makes and may raise. *)
Definition M (A : Type) : Type := (list event * (exn + A))%type.

Definition ret {A : Type} (a : A) : M A := ([], inr a).
Definition raise {A : Type} (e : exn) : M A := ([], inl e).
Definition bind {A B : Type} (m : M A) (k : A -> M B) : M B :=
  match m with
  | (t, inl e) => (t, inl e)
  | (t, inr a) => let '(t', r) := k a in ((t ++ t')%list, r)
  end.

Notation "x <- m ;; k" := (bind m (fun x => k))
  (at level 61, m at next level, right associativity).
Notation "m ;; k" := (bind m (fun _ => k))
  (at level 61, right associativity).

(** One call on the transport: it is logged, and raises when the transport
    fails at this stage. *)
Definition transport_call (b : hop_behaviour) (s : stage) (ev : event) : M unit :=
  ([ev], if fails_at b s then inl (TransportError s) else inr tt).

(** Lines 180-195. *)
Definition send_request_headers (b : hop_behaviour) (self : _HTTPClient)
    (c : nat) (connection : Connection) (buffer : list string)
    (request_headers : list pair_t) : M unit :=
  transport_call b AtEndHeaders
    (EvEndHeaders c (staged_headers self connection buffer request_headers)).

Definition is_httplib_connection (connection : Connection) : bool :=
  match conn_class_of connection with
  | HTTPConnection _ _ _ | HTTPSConnection _ _ _ _ => true
  | _ => false
  end.

(** Lines 197-203. *)
Definition send_request_body (b : hop_behaviour) (c : nat)
    (connection : Connection) (request_body : option string) : M unit :=
  if truthy request_body then transport_call b AtSend (EvSend c request_body)
  else if negb (is_httplib_connection connection)
       then transport_call b AtSend (EvSend c None)
       else ret tt.

(** Lines 262-266. *)
Definition read_body (b : hop_behaviour) (c : nat) (resp : RawResponse)
  : M (option string) :=
  match resp_length resp with
  | None =>
      transport_call b AtRead (EvRead c None) ;;
      ret (Some (resp_read resp None))
  | Some n =>
      if (n >? 0)%Z
      then transport_call b AtRead (EvRead c (Some n)) ;;
           ret (Some (resp_read resp (Some n)))
      else ret None
  end.

(** Lines 259-260. *)
Definition lower_names (respheaders : list (string * string))
  : list (string * string) :=
  map (fun value => (lower (fst value), snd value)) respheaders.

(** How the [try] block of [perform_request] ends when it does not raise:
    with the response, or with the request rewritten for the next hop. *)
Inductive hop_result :=
| Return (response : HTTPResponse)
| Redirect (request : Request).

Definition lift {A : Type} (r : exn + A) : M A := ([], r).

(** Lines 278-281. *)
Definition redirect_request (respheaders : list (string * string))
    (request : Request) : M Request :=
  match dict_get "location" respheaders with
  | None => raise (KeyError "location")
  | Some location =>
      new_url <- lift (UrlParse.urlparse location) ;;
      let request := set_host (UrlParse.hostname new_url) request in
      let request := set_path (UrlParse.path new_url) request in
      let '(request, (p, q)) := _update_request_uri_query request in
      ret (set_query q (set_path p request))
  end.

(** Lines 236-286, the body of the [try]. *)
Definition attempt (T : Transport) (self : _HTTPClient) (c : nat)
    (connection : Connection) (request : Request) : M hop_result :=
  let b := tr_behaviour T c request in
  transport_call b AtPutRequest
    (EvPutRequest c (req_method request) (req_path request)) ;;
  (if negb (use_httplib self) && (truthy (proxy_host self) && truthy (proxy_user self))
   then transport_call b AtProxyCredentials
          (EvSetProxyCredentials c (proxy_user self) (proxy_password self))
   else ret tt) ;;
  send_request_headers b self c connection
    (tr_putrequest T connection (req_method request) (req_path request))
    (req_headers request) ;;
  send_request_body b c connection (req_body request) ;;
  transport_call b AtGetResponse (EvGetResponse c) ;;
  let resp := hb_response b in
  let status := resp_status resp in
  let message := resp_reason resp in
  let respheaders := lower_names (resp_headers resp) in
  respbody <- read_body b c resp ;;
  let response := mkResponse status (resp_reason resp) respheaders respbody in
  if (status =? 307)%Z then
    request' <- redirect_request respheaders request ;;
    ret (Redirect request')
  else if (status >=? 300)%Z then
    raise (HTTPError status message respheaders respbody)
  else ret (Return response).

(** What one execution leaves behind: the next free connection number, the
    calls made, the request object as mutated, and the result (returned
    response or raised exception). *)
Record Run := mkRun {
  run_next : nat;
  run_trace : list event;
  run_request : Request;
  run_outcome : exn + HTTPResponse
}.

(** Lines 232-288.  [fuel] bounds the number of hops; [next] numbers the
    connections.  The recursive call sits inside the [try], so the [finally]
    clause of a redirected hop runs after the following hops are over. *)
Fixpoint perform_request (fuel : nat) (T : Transport) (self : _HTTPClient)
    (next : nat) (request : Request) : option Run :=
  match fuel with
  | O => None
  | S fuel' =>
      match get_connection self request with
      | inl e => Some (mkRun next [] request (inl e))
      | inr connection =>
          let c := next in
          match attempt T self c connection request with
          | (t, inl e) =>
              Some (mkRun (S c) (EvOpen c connection :: t ++ [EvClose c])%list
                          request (inl e))
          | (t, inr (Return response)) =>
              Some (mkRun (S c) (EvOpen c connection :: t ++ [EvClose c])%list
                          request (inr response))
          | (t, inr (Redirect request')) =>
              match perform_request fuel' T self (S c) request' with
              | None => None
              | Some r =>
                  Some (mkRun (run_next r)
                              (EvOpen c connection :: t ++ run_trace r ++ [EvClose c])%list
                              (run_request r) (run_outcome r))
              end
          end
      end
  end.

(** ** Vocabulary of the statements *)

(** The text one round of the re-append loop adds for a pair. *)
Definition segment (p : pair_t) : string := append_pair EmptyString p.

(** The text the whole loop adds for a list of pairs. *)
Fixpoint segments (l : list pair_t) : string :=
  match l with
  | [] => EmptyString
  | p :: r => segment p ++ segments r
  end.

(** The part of a path before its first [?] and the part after it. *)
Definition path_base (p : string) : string := fst (fst (partition "?" p)).
Definition path_query (p : string) : string := snd (partition "?" p).

(** The pairs that carry a value. *)
Definition present (l : list pair_t) : list (string * string) :=
  flat_map (fun p => match snd p with Some v => [(fst p, v)] | None => [] end) l.

Definition with_value (p : string * string) : pair_t := (fst p, Some (snd p)).

(** A pair as the normaliser writes it: the name as it is, the value
    percent-encoded. *)
Definition render_pair (p : string * string) : string :=
  fst p ++ "=" ++ url_quote (snd p) SAFE.

Definition query_suffix (l : list (string * string)) : string :=
  match l with
  | [] => EmptyString
  | _ :: _ => "?" ++ join "&" (map render_pair l)
  end.

(** The items of an inline query string: [name=value], or text without [=]. *)
Inductive item :=
| Junk (text : string)
| Pair (name value : string).

Definition item_text (i : item) : string :=
  match i with
  | Junk t => t
  | Pair n v => n ++ "=" ++ v
  end.

Definition wf_item (i : item) : Prop :=
  match i with
  | Junk t => contains "&" t = false /\ contains "=" t = false
  | Pair n v =>
      contains "&" n = false /\ contains "=" n = false /\ contains "&" v = false
  end.

Definition item_pairs (l : list item) : list (string * string) :=
  flat_map (fun i => match i with Junk _ => [] | Pair n v => [(n, v)] end) l.

(** The encoded path in which name and value of every pair are both
    percent-encoded. *)
Definition fully_encoded_pair (p : string * string) : string :=
  url_quote (fst p) SAFE ++ "=" ++ url_quote (snd p) SAFE.

Definition fully_encoded_path (base : string) (l : list (string * string)) : string :=
  url_quote base SAFE ++ "?" ++ join "&" (map fully_encoded_pair l).

(** [a] occurs in [s], and its first occurrence starts before that of [b]. *)
Definition precedes_in (a b s : string) : bool :=
  match String.index 0 a s, String.index 0 b s with
  | Some i, Some j => (i <? j)%nat
  | _, _ => false
  end.

(** What lines 190-192 stage for the caller's headers. *)
Definition request_header_lines (request_headers : list pair_t) : list string :=
  flat_map (fun h => match snd h with
                     | Some value => if nonempty value then [fst h ++ ": " ++ value] else []
                     | None => []
                     end)
           request_headers.

(** The port a socket connection is opened to. *)
Definition class_port (k : conn_class) : option Z :=
  match k with
  | HTTPConnection _ port _ | HTTPSConnection _ port _ _ => Some port
  | _ => None
  end.

(** The socket connection class picked for a protocol. *)
Definition socket_class (self : _HTTPClient) (protocol host : string) (port : Z)
  : conn_class :=
  if String.eqb protocol "http"
  then HTTPConnection host port (timeout self)
  else HTTPSConnection host port (cert_file self) (timeout self).

(** No line of [l] is a [Host] header. *)
Definition no_host_line (l : list string) : Prop :=
  Forall (fun line => is_host_line line = false) l.

(** The connection an event belongs to. *)
Definition event_conn (e : event) : nat :=
  match e with
  | EvOpen c _ | EvPutRequest c _ _ | EvSetProxyCredentials c _ _
  | EvEndHeaders c _ | EvSend c _ | EvGetResponse c | EvRead c _
  | EvClose c => c
  end.

Definition is_open (c : nat) (e : event) : bool :=
  match e with EvOpen c' _ => Nat.eqb c' c | _ => false end.

Definition is_close (c : nat) (e : event) : bool :=
  match e with EvClose c' => Nat.eqb c' c | _ => false end.

(** An event of the [try] body: neither the creation nor the release of a
    connection. *)
Definition in_try (e : event) : bool :=
  match e with EvOpen _ _ | EvClose _ => false | _ => true end.

(** How often [close()] was called on connection [c]. *)
Definition closes (c : nat) (t : list event) : nat :=
  length (filter (is_close c) t).

(** How many request lines were written. *)
Definition requests_issued (t : list event) : nat :=
  length (filter (fun e => match e with EvPutRequest _ _ _ => true | _ => false end) t).

(** The [read] calls made on connection [c], with their arguments. *)
Definition reads (c : nat) (t : list event) : list (option Z) :=
  flat_map (fun e => match e with
                     | EvRead c' amt => if Nat.eqb c' c then [amt] else []
                     | _ => []
                     end) t.

(** Position of the first event that satisfies [f]. *)
Fixpoint position (f : event -> bool) (t : list event) : option nat :=
  match t with
  | [] => None
  | e :: r => if f e then Some 0 else option_map S (position f r)
  end.

(** Connection [c] is closed before connection [c'] is opened. *)
Definition closed_before_opened (c c' : nat) (t : list event) : bool :=
  match position (is_close c) t, position (is_open c') t with
  | Some i, Some j => (i <? j)%nat
  | _, _ => false
  end.

(** A transport that does not fail and delivers [resp]. *)
Definition working (resp : RawResponse) : hop_behaviour := mkBehaviour None resp.

(** The body lines 262-266 leave in [respbody] when the reads succeed. *)
Definition declared_body (resp : RawResponse) : option string :=
  match resp_length resp with
  | None => Some (resp_stream resp)
  | Some n => if (0 <? n)%Z then Some (take (Z.to_nat n) (resp_stream resp)) else None
  end.

(** The body a result carries: that of the response returned or of the
    [HTTPError] raised. *)
Definition outcome_body (o : exn + HTTPResponse) : option (option string) :=
  match o with
  | inr response => Some (body response)
  | inl (HTTPError _ _ _ respbody) => Some respbody
  | inl _ => None
  end.

(** The request as lines 279-281 leave it. *)
Definition redirected (request : Request) (host : option string) (path : string)
  : Request :=
  fst (_update_request_uri_query (set_path path (set_host host request))).

(** How a hop ends when the transport does not fail (lines 275-286). *)
Definition hop_outcome (resp : RawResponse) (request : Request) : exn + hop_result :=
  let respheaders := lower_names (resp_headers resp) in
  if (resp_status resp =? 307)%Z then
    match snd (redirect_request respheaders request) with
    | inl e => inl e
    | inr request' => inr (Redirect request')
    end
  else if (resp_status resp >=? 300)%Z then
    inl (HTTPError (resp_status resp) (resp_reason resp) respheaders
                   (declared_body resp))
  else
    inr (Return (mkResponse (resp_status resp) (resp_reason resp) respheaders
                            (declared_body resp))).

(** An event of the [try] body of the hop on connection [c]. *)
Definition hop_event (c : nat) (e : event) : Prop :=
  event_conn e = c /\ in_try e = true.

(** The calls of a hop over a transport that does not fail, in order:
    request line, proxy credentials (platform transport only), headers,
    body, response, body read. *)
Definition hop_calls (T : Transport) (self : _HTTPClient) (c : nat)
    (connection : Connection) (request : Request) (resp : RawResponse)
  : list event :=
  ([EvPutRequest c (req_method request) (req_path request)]
   ++ (if negb (use_httplib self)
          && (truthy (proxy_host self) && truthy (proxy_user self))
       then [EvSetProxyCredentials c (proxy_user self) (proxy_password self)]
       else [])
   ++ [EvEndHeaders c
         (staged_headers self connection
            (tr_putrequest T connection (req_method request) (req_path request))
            (req_headers request))]
   ++ (if truthy (req_body request) then [EvSend c (req_body request)]
       else if negb (is_httplib_connection connection) then [EvSend c None]
            else [])
   ++ [EvGetResponse c]
   ++ match resp_length resp with
      | None => [EvRead c None]
      | Some n => if (0 <? n)%Z then [EvRead c (Some n)] else []
      end)%list.

(** The executions of [perform_request] as a relation: [runs T self next
    request r] when the call on [request], with [next] the first free
    connection number, ends and leaves [r]. *)
Inductive runs (T : Transport) (self : _HTTPClient) : nat -> Request -> Run -> Prop :=
| run_no_connection next request e :
    get_connection self request = inl e ->
    runs T self next request (mkRun next [] request (inl e))
| run_raise next request connection t e :
    get_connection self request = inr connection ->
    attempt T self next connection request = (t, inl e) ->
    runs T self next request
         (mkRun (S next) (EvOpen next connection :: t ++ [EvClose next])%list
                request (inl e))
| run_return next request connection t response :
    get_connection self request = inr connection ->
    attempt T self next connection request = (t, inr (Return response)) ->
    runs T self next request
         (mkRun (S next) (EvOpen next connection :: t ++ [EvClose next])%list
                request (inr response))
| run_redirect next request connection t request' r :
    get_connection self request = inr connection ->
    attempt T self next connection request = (t, inr (Redirect request')) ->
    runs T self (S next) request' r ->
    runs T self next request
         (mkRun (run_next r)
                (EvOpen next connection :: t ++ run_trace r ++ [EvClose next])%list
                (run_request r) (run_outcome r)).

(** ** Sample inputs *)

Definition example_request : Request :=
  mkRequest "GET" (Some "management.core.windows.net") "/a?x=1"
            [("y", Some "2")] [] None None.

Definition spaced_name_request : Request :=
  mkRequest "GET" (Some "management.core.windows.net") "/a?x y=1"
            [("k", Some "v")] [] None None.

Definition default_client : _HTTPClient :=
  mkClient None "https" None PortNone None None None 65 "azure-sdk" true.

Definition ftp_client : _HTTPClient :=
  mkClient None "ftp" None PortNone None None None 65 "azure-sdk" true.

Definition proxied_client : _HTTPClient :=
  set_proxy default_client (Some "192.168.0.100") (PortInt 6000) None None.

Definition explicit_port_request : Request :=
  mkRequest "GET" (Some "localhost:10000") "/a" [] [] None None.

Definition tunnelled_connection : Connection :=
  mkConnection (HTTPSConnection "192.168.0.100" 6000 None 65)
               (Some (mkTunnel "management.core.windows.net" 443 None)).

Definition default_buffer : list string :=
  ["GET /a HTTP/1.1"; "Host: 192.168.0.100:6000"; "Accept-Encoding: identity"].

Definition host_header_request : list pair_t :=
  [("x-ms-version", Some "2014-10-01"); ("Host", Some "other.example.net")].

Definition ok_response : RawResponse :=
  mkRaw 200 "OK" [("Content-Type", "application/xml")] (Some 3%Z) "<a>".

Definition redirect_response : RawResponse :=
  mkRaw 307 "Temporary Redirect" [("Location", "https://host2/newpath")]
        (Some 0%Z) EmptyString.

Definition not_found_response : RawResponse :=
  mkRaw 404 "Not Found" [("Content-Length", "9")] None "not found".

Definition socket_putrequest (connection : Connection) (method path : string)
  : list string :=
  [method ++ " " ++ path ++ " HTTP/1.1"; "Accept-Encoding: identity"].

(** The first connection is answered with a redirect, the later ones with
    a success. *)
Definition redirect_once : Transport :=
  mkTransport socket_putrequest
    (fun c _ => match c with
                | O => working redirect_response
                | S _ => working ok_response
                end).

Definition always (b : hop_behaviour) : Transport :=
  mkTransport socket_putrequest (fun _ _ => b).

Definition plain_request : Request :=
  mkRequest "GET" (Some "management.core.windows.net") "/a" [] [] None None.

Definition plain_connection : Connection :=
  mkConnection (HTTPSConnection "management.core.windows.net" 443 None 65) None.

(** A transport whose connections break while the response is awaited. *)
Definition broken : Transport :=
  always (mkBehaviour (Some AtGetResponse) ok_response).

Definition long_response : RawResponse :=
  mkRaw 200 "OK" [] (Some 3%Z) "<a>trailing".

(** ** Further vocabulary *)

(** A character [quote] leaves alone under the client's safe set. *)
Definition safe_char (c : ascii) : bool := always_safe c || contains c SAFE.

(** A character that can occur in the output of [quote]. *)
Definition quoted_char (c : ascii) : bool := safe_char c || Ascii.eqb c "%".

(** A valued pair with its value percent-encoded. *)
Definition requote (p : string * string) : string * string :=
  (fst p, url_quote (snd p) SAFE).

(** A pair name that holds neither [&] nor [=]. *)
Definition plain_name (p : string * string) : Prop :=
  contains "&" (fst p) = false /\ contains "=" (fst p) = false.

(** How many connections a trace obtains and how many it closes. *)
Definition opens_count (t : list event) : nat :=
  length (filter (fun e => match e with EvOpen _ _ => true | _ => false end) t).
Definition closes_count (t : list event) : nat :=
  length (filter (fun e => match e with EvClose _ => true | _ => false end) t).

(** The transport fails at a call every hop makes. *)
Definition unconditional_stage (s : stage) : bool :=
  match s with
  | AtPutRequest | AtEndHeaders | AtGetResponse => true
  | _ => false
  end.

(** The calls of a hop up to and including the one at which the transport
    fails. *)
Definition calls_until (T : Transport) (self : _HTTPClient) (c : nat)
    (connection : Connection) (request : Request) (s : stage) : list event :=
  match s with
  | AtPutRequest => [EvPutRequest c (req_method request) (req_path request)]
  | AtEndHeaders =>
      ([EvPutRequest c (req_method request) (req_path request)]
       ++ (if negb (use_httplib self)
              && (truthy (proxy_host self) && truthy (proxy_user self))
           then [EvSetProxyCredentials c (proxy_user self) (proxy_password self)]
           else [])
       ++ [EvEndHeaders c
             (staged_headers self connection
                (tr_putrequest T connection (req_method request) (req_path request))
                (req_headers request))])%list
  | _ =>
      ([EvPutRequest c (req_method request) (req_path request)]
       ++ (if negb (use_httplib self)
              && (truthy (proxy_host self) && truthy (proxy_user self))
           then [EvSetProxyCredentials c (proxy_user self) (proxy_password self)]
           else [])
       ++ [EvEndHeaders c
             (staged_headers self connection
                (tr_putrequest T connection (req_method request) (req_path request))
                (req_headers request))]
       ++ (if truthy (req_body request) then [EvSend c (req_body request)]
           else if negb (is_httplib_connection connection) then [EvSend c None]
                else [])
       ++ [EvGetResponse c])%list
  end.

(** The three transports. *)
Inductive transport_kind := SessionBacked | PlatformNative | SocketBased.

Definition kind_of (connection : Connection) : transport_kind :=
  match conn_class_of connection with
  | RequestsConnection _ _ _ _ => SessionBacked
  | WinHTTPConnection _ _ _ _ => PlatformNative
  | HTTPConnection _ _ _ | HTTPSConnection _ _ _ _ => SocketBased
  end.



(** An [HTTPError] carries a status of 300 or more other than 307. *)
Definition error_status_ok (e : exn) : Prop :=
  match e with
  | HTTPError s _ _ _ => (300 <= s /\ s <> 307)%Z
  | _ => True
  end.

(** Whatever [m] raises satisfies [Q]. *)
Definition raises_only {A : Type} (Q : exn -> Prop) (m : M A) : Prop :=
  forall e, snd m = inl e -> Q e.

(** What [send] may be given: a body that is not empty, or [None]. *)
Definition send_ok (e : event) : Prop :=
  match e with
  | EvSend _ (Some data) => data <> EmptyString
  | _ => True
  end.

(** A client with an injected session. *)
Definition session_client : _HTTPClient :=
  init_client false (fun _ => false) None "https" (Some (session_handle 0)) 65
              "azure-sdk".

(** A character of a decimal literal as [int] reads it: a digit, a sign, an
    underscore or a blank. *)
Definition numeric_char (c : ascii) : bool :=
  is_digit c || contains c "+-_" || is_space c.

(** An ASCII character that no decimal literal holds.  The separators 28 to
    31, which some versions of [int] take for blanks, are left out. *)
Definition foreign_char (c : ascii) : bool :=
  let n := nat_of_ascii c in
  (n <? 128)%nat && negb (numeric_char c) && negb ((28 <=? n)%nat && (n <=? 31)%nat).

Fixpoint any_char (f : ascii -> bool) (s : string) : bool :=
  match s with
  | EmptyString => false
  | String c r => f c || any_char f r
  end.

(** Text that [int] is sure to reject: empty, or with a foreign character. *)
Definition surely_malformed (s : string) : bool :=
  match s with
  | EmptyString => true
  | _ => any_char foreign_char s
  end.

(** The error [int] is sure to raise on a port value, if any. *)
Definition port_rejection (p : port_val) : option exn :=
  match p with
  | PortNone => Some TypeError
  | PortStr s => if surely_malformed s then Some ValueError else None
  | PortInt _ => None
  end.

(** How lines 151-152 read the request host: as it is, with the default
    port, or cut at its last [:] with the port that the text after it
    denotes. *)
Definition reads_host_as (default : Z) (host name : string) (port : Z) : Prop :=
  (contains ":" host = false /\ name = host /\ port = default)
  \/ exists suffix,
       host = name ++ ":" ++ suffix
       /\ contains ":" suffix = false
       /\ int_of_str suffix = Some port.

(** Traces in which the hops are nested: a hop obtains connection [c], makes
    its calls on it, lets the following hops (numbered from [c + 1]) run to
    their end, and closes [c] last. *)
Inductive nested : nat -> list event -> Prop :=
| nested_none c : nested c []
| nested_hop c connection hop inner :
    Forall (hop_event c) hop ->
    nested (S c) inner ->
    nested c (EvOpen c connection :: hop ++ inner ++ [EvClose c])%list.

(** The execution that follows one redirect from [plain_request]. *)
Definition host2_connection : Connection :=
  mkConnection (HTTPSConnection "host2" 443 None 65) None.

Definition redirect_once_run : Run :=
  mkRun 2
    [EvOpen 0 plain_connection;
     EvPutRequest 0 "GET" "/a";
     EvEndHeaders 0 ["GET /a HTTP/1.1"; "Accept-Encoding: identity";
                     "User-Agent: azure-sdk"];
     EvGetResponse 0;
     EvOpen 1 host2_connection;
     EvPutRequest 1 "GET" "/newpath";
     EvEndHeaders 1 ["GET /newpath HTTP/1.1"; "Accept-Encoding: identity";
                     "User-Agent: azure-sdk"];
     EvGetResponse 1; EvRead 1 (Some 3%Z);
     EvClose 1; EvClose 0]
    (mkRequest "GET" (Some "host2") "/newpath" [] [] None None)
    (inr (mkResponse 200 "OK" [("content-type", "application/xml")] (Some "<a>"))).

(** * Properties *)

(** ** Strings *)

Section StringFacts.

Variable c : ascii.

Lemma append_assoc_s (a b d : string) : (a ++ b) ++ d = a ++ (b ++ d).
Proof. induction a as [|x a IH]; simpl; [reflexivity | now rewrite IH]. Qed.

Lemma append_nil_r_s (a : string) : a ++ EmptyString = a.
Proof. induction a as [|x a IH]; simpl; [reflexivity | now rewrite IH]. Qed.

Lemma contains_append (a b : string) :
  contains c (a ++ b) = contains c a || contains c b.
Proof.
  induction a as [|x a IH]; simpl; [reflexivity|].
  destruct (Ascii.eqb x c); [reflexivity | exact IH].
Qed.

Lemma contains_here (b : string) : contains c (String c b) = true.
Proof. simpl. now rewrite Ascii.eqb_refl. Qed.

Lemma partition_first (a b : string) :
  contains c a = false ->
  partition c (a ++ String c b) = (a, String c EmptyString, b).
Proof.
  induction a as [|x a IH]; simpl; intros H.
  - now rewrite Ascii.eqb_refl.
  - destruct (Ascii.eqb x c); [discriminate|].
    now rewrite (IH H).
Qed.

Lemma partition_absent (s : string) :
  contains c s = false -> partition c s = (s, EmptyString, EmptyString).
Proof.
  induction s as [|x s IH]; simpl; intros H; [reflexivity|].
  destruct (Ascii.eqb x c); [discriminate|].
  now rewrite (IH H).
Qed.

Lemma split_absent (s : string) : contains c s = false -> split c s = [s].
Proof.
  induction s as [|x s IH]; simpl; intros H; [reflexivity|].
  destruct (Ascii.eqb x c); [discriminate|].
  now rewrite (IH H).
Qed.

Lemma split_first (a b : string) :
  contains c a = false -> split c (a ++ String c b) = a :: split c b.
Proof.
  induction a as [|x a IH]; simpl; intros H.
  - now rewrite Ascii.eqb_refl.
  - destruct (Ascii.eqb x c); [discriminate|].
    now rewrite (IH H).
Qed.

(** Splitting undoes joining when no piece holds the separator. *)
Lemma split_join (l : list string) :
  l <> [] ->
  Forall (fun s => contains c s = false) l ->
  split c (join c l) = l.
Proof.
  induction l as [|s l IH]; intros Hne Hall; [congruence|].
  inversion Hall as [|? ? Hs Hl]; subst.
  destruct l as [|s' l].
  - simpl. now apply split_absent.
  - change (join c (s :: s' :: l)) with (s ++ String c (join c (s' :: l))).
    rewrite split_first by assumption.
    now rewrite IH.
Qed.

Lemma drop_last_snoc (s : string) : drop_last (s ++ String c EmptyString) = s.
Proof.
  induction s as [|x s IH]; simpl; [reflexivity|].
  rewrite IH. destruct s; reflexivity.
Qed.

End StringFacts.

(** ** The query normaliser *)

Lemma fold_append_pair (l : list pair_t) (acc : string) :
  fold_left append_pair l acc = acc ++ segments l.
Proof.
  revert acc; induction l as [|p l IH]; intros acc; simpl.
  - now rewrite append_nil_r_s.
  - rewrite IH. unfold segment, append_pair.
    destruct (snd p); simpl; [|reflexivity].
    now rewrite !append_assoc_s.
Qed.

Lemma segments_app (l1 l2 : list pair_t) :
  segments (l1 ++ l2) = segments l1 ++ segments l2.
Proof.
  induction l1 as [|p l1 IH]; simpl; [reflexivity|].
  now rewrite IH, append_assoc_s.
Qed.

Lemma present_app (l1 l2 : list pair_t) :
  present (l1 ++ l2) = (present l1 ++ present l2)%list.
Proof. unfold present. now rewrite flat_map_app. Qed.

Lemma present_with_value (l : list (string * string)) :
  present (map with_value l) = l.
Proof.
  induction l as [|[n v] l IH]; [reflexivity|].
  cbn [map]. change (present (with_value (n, v) :: map with_value l))
    with ((n, v) :: present (map with_value l)).
  now rewrite IH.
Qed.

(** The loop writes the valued pairs joined by [&], plus one trailing [&]. *)
Lemma segments_join (l : list pair_t) :
  segments l = match present l with
               | [] => EmptyString
               | ps => join "&" (map render_pair ps) ++ "&"
               end.
Proof.
  induction l as [|[n [v|]] l IH]; [reflexivity| |exact IH].
  change (segments ((n, Some v) :: l))
    with ((n ++ "=" ++ url_quote v SAFE ++ "&") ++ segments l).
  change (present ((n, Some v) :: l)) with ((n, v) :: present l).
  rewrite IH.
  destruct (present l) as [|q ps].
  - rewrite append_nil_r_s. cbn [map join]. unfold render_pair. cbn [fst snd].
    now rewrite !append_assoc_s.
  - cbn [map].
    change (join "&" (render_pair (n, v) :: render_pair q :: map render_pair ps))
      with (render_pair (n, v)
            ++ String "&" (join "&" (render_pair q :: map render_pair ps))).
    generalize (join "&" (render_pair q :: map render_pair ps)); intros J.
    unfold render_pair. cbn [fst snd].
    now rewrite !append_assoc_s.
Qed.

(** Lines 223-228 in closed form. *)
Lemma rendered_query (a : string) (l : list pair_t) :
  match l with
  | [] => a
  | _ :: _ => drop_last (fold_left append_pair l (a ++ "?"))
  end = a ++ query_suffix (present l).
Proof.
  destruct l as [|p l]; [simpl; now rewrite append_nil_r_s|].
  rewrite fold_append_pair, segments_join.
  destruct (present (p :: l)) as [|q ps].
  - cbn [query_suffix]. rewrite !append_nil_r_s. apply (drop_last_snoc "?").
  - cbn [query_suffix].
    generalize (join "&" (map render_pair (q :: ps))); intros J.
    rewrite <- (append_assoc_s (a ++ "?") J "&").
    rewrite (drop_last_snoc "&"). apply append_assoc_s.
Qed.

Lemma inline_pairs_join (items : list item) :
  Forall wf_item items ->
  inline_pairs (join "&" (map item_text items)) = map with_value (item_pairs items).
Proof.
  intros Hwf. unfold inline_pairs.
  destruct items as [|i items]; [reflexivity|].
  rewrite split_join.
  - clear -Hwf. induction Hwf as [|j l Hj Hl IH]; [reflexivity|].
    cbn [map flat_map item_pairs]. fold (item_pairs l).
    rewrite IH. destruct j as [t|n v]; simpl in Hj |- *.
    + destruct Hj as [_ He]. now rewrite He.
    + destruct Hj as (_ & He & _).
      rewrite (contains_append "=" n (String "=" v)), He.
      rewrite contains_here, (partition_first "=" n v He). reflexivity.
  - discriminate.
  - clear -Hwf. induction Hwf as [|j l Hj Hl IH]; constructor; [|exact IH].
    destruct j as [t|n v]; simpl in Hj |- *; [tauto|].
    destruct Hj as (Hn & _ & Hv).
    rewrite (contains_append "&" n (String "=" v)), Hn. simpl. exact Hv.
Qed.


(** The normaliser, for a path with no [?]-suffix or with any. *)
Lemma update_request_uri_query_eq (request : Request) :
  snd (_update_request_uri_query request)
  = (url_quote (path_base (req_path request)) SAFE
       ++ query_suffix (present (req_query request
                                 ++ inline_pairs (path_query (req_path request)))),
     (req_query request ++ inline_pairs (path_query (req_path request)))%list).
Proof.
  destruct request as [m h pa q hd bd po].
  unfold _update_request_uri_query, path_base, path_query.
  cbn [req_path req_query].
  destruct (contains "?" pa) eqn:Hq.
  - destruct (partition "?" pa) as [[p sep] qs] eqn:Hp.
    cbn [fst snd].
    destruct (nonempty qs) eqn:Hne.
    + cbn [snd req_path req_query set_path set_query].
      rewrite <- rendered_query.
      destruct (q ++ inline_pairs qs)%list; reflexivity.
    + destruct qs; [|discriminate].
      change (inline_pairs EmptyString) with (@nil pair_t). rewrite app_nil_r.
      cbn [snd req_path req_query set_path set_query].
      rewrite <- rendered_query.
      destruct q; reflexivity.
  - rewrite (partition_absent "?" _ Hq). cbn [fst snd].
    change (inline_pairs EmptyString) with (@nil pair_t). rewrite app_nil_r.
    cbn [req_path req_query set_path set_query].
    rewrite <- rendered_query.
    destruct q; reflexivity.
Qed.

Lemma join_app (c : ascii) (l1 l2 : list string) :
  l1 <> [] -> l2 <> [] ->
  join c (l1 ++ l2) = join c l1 ++ String c (join c l2).
Proof.
  intros H1 H2. induction l1 as [|s l1 IH]; [congruence|].
  destruct l1 as [|s' l1].
  - destruct l2; [congruence | reflexivity].
  - change (join c ((s :: s' :: l1) ++ l2))
      with (s ++ String c (join c ((s' :: l1) ++ l2))).
    rewrite IH by discriminate.
    change (join c (s :: s' :: l1)) with (s ++ String c (join c (s' :: l1))).
    now rewrite append_assoc_s.
Qed.

(** C5 (amended).  For a path [base?items] whose items are joined by [&],
    the normaliser cuts the path at its first [?], turns every item that
    holds an [=] into the pair (text before the first [=], text after it),
    and appends these pairs in order after the explicit ones.  The final
    path is the encoded base followed by the pairs in that order (explicit
    first), each written as [name=value] with the value percent-encoded under
    the safe set [/()$=',] and the name left as it is; pairs without a value
    are left out. *)
Theorem normalizer_appends_inline_after_explicit
    (request : Request) (base : string) (items : list item) :
  contains "?" base = false ->
  Forall wf_item items ->
  req_path request = base ++ "?" ++ join "&" (map item_text items) ->
  snd (_update_request_uri_query request)
  = (url_quote base SAFE
       ++ query_suffix (present (req_query request) ++ item_pairs items),
     (req_query request ++ map with_value (item_pairs items))%list).
Proof.
  intros Hbase Hwf Hpath.
  rewrite update_request_uri_query_eq, Hpath.
  unfold path_base, path_query.
  change (base ++ "?" ++ join "&" (map item_text items))
    with (base ++ String "?" (join "&" (map item_text items))).
  rewrite (partition_first "?" _ _ Hbase). cbn [fst snd].
  rewrite (inline_pairs_join items Hwf).
  now rewrite present_app, present_with_value.
Qed.

Lemma normalizer_appends_inline_after_explicit_witness :
  snd (_update_request_uri_query example_request)
  = ("/a?y=2&x=1", [("y", Some "2"); ("x", Some "1")]).
Proof.
  apply (normalizer_appends_inline_after_explicit
           example_request "/a" [Pair "x" "1"]).
  - reflexivity.
  - repeat constructor.
  - reflexivity.
Defined.

(** C5 as stated fails on the encoding of the pairs: a name that holds a
    character outside the safe set reaches the final path as it is. *)
Lemma pair_names_are_not_encoded :
  fst (snd (_update_request_uri_query spaced_name_request)) = "/a?k=v&x y=1"
  /\ fully_encoded_path "/a" [("k", "v"); ("x y", "1")] = "/a?k=v&x%20y=1"
  /\ fst (snd (_update_request_uri_query spaced_name_request))
     <> fully_encoded_path "/a" [("k", "v"); ("x y", "1")].
Proof. repeat split; try reflexivity. discriminate. Qed.

(** C6 (amended).  The explicit pairs come first: the merged query list is
    the explicit pairs followed by the pairs found in the path, and the
    final encoded path lists the valued explicit pairs before the inline
    ones. *)
Theorem explicit_pairs_precede_inline_pairs (request : Request) :
  snd (_update_request_uri_query request)
  = (url_quote (path_base (req_path request)) SAFE
       ++ match map render_pair (present (req_query request)),
                map render_pair (present (inline_pairs (path_query (req_path request))))
          with
          | [], [] => EmptyString
          | explicit, [] => "?" ++ join "&" explicit
          | [], inline => "?" ++ join "&" inline
          | explicit, inline => "?" ++ join "&" explicit ++ "&" ++ join "&" inline
          end,
     (req_query request ++ inline_pairs (path_query (req_path request)))%list).
Proof.
  rewrite update_request_uri_query_eq, present_app.
  f_equal. f_equal.
  generalize (present (req_query request)); intros E.
  generalize (present (inline_pairs (path_query (req_path request)))); intros I.
  destruct E as [|e E], I as [|i I]; try reflexivity.
  - cbn [app]. rewrite app_nil_r. reflexivity.
  - unfold query_suffix.
    rewrite map_app, join_app by discriminate.
    reflexivity.
Qed.

(** C6 as stated fails: on the path [/a?x=1] with the explicit pair
    [y=2], the inline pair comes after the explicit one. *)
Lemma inline_pairs_do_not_come_first :
  fst (snd (_update_request_uri_query example_request)) = "/a?y=2&x=1"
  /\ precedes_in "x=1" "y=2"
       (fst (snd (_update_request_uri_query example_request))) = false
  /\ precedes_in "y=2" "x=1"
       (fst (snd (_update_request_uri_query example_request))) = true.
Proof. repeat split; reflexivity. Qed.

(** ** Transport selection *)

Lemma effective_protocol_is_lower (self : _HTTPClient) (request : Request) :
  exists p, effective_protocol self request = lower p
            /\ (p = protocol self \/ req_protocol_override request = Some p).
Proof.
  unfold effective_protocol.
  destruct (req_protocol_override request) as [p|]; simpl.
  - destruct (nonempty p); eauto.
  - eauto.
Qed.

(** C10 (amended).  A protocol whose lower-case form is not [http] gives
    port 443 in [get_uri] and, on the socket transport, an HTTPS connection
    whose target port is 443 when the request host has no [:port] suffix; a
    [:port] suffix replaces the default port.  The lower-case form [http]
    gives port 80 and a plain HTTP connection in the same way.  Without a
    proxy the target port is the port of the connection; with a proxy (its
    port a number, the credentials not both set) the connection goes to the
    proxy and the target port is the port of the tunnel. *)
Theorem protocol_selects_port_and_class
    (self : _HTTPClient) (request : Request) (host : string) :
  req_host request = Some host ->
  let protocol := effective_protocol self request in
  let default := if String.eqb protocol "http" then 80%Z else 443%Z in
  get_uri self request
  = inr (protocol ++ "://" ++ host ++ ":"
           ++ (if String.eqb protocol "http" then "80" else "443")
           ++ req_path request)
  /\ forall name port,
       request_session self = None ->
       use_httplib self = true ->
       reads_host_as default host name port ->
       match configured_proxy self with
       | None =>
           get_connection self request
           = inr (mkConnection (socket_class self protocol name port) None)
       | Some proxy =>
           forall n,
             truthy (proxy_user self) && truthy (proxy_password self) = false ->
             py_int (proxy_port self) = inr n ->
             get_connection self request
             = inr (mkConnection (socket_class self protocol proxy n)
                                 (Some (mkTunnel name port None)))
       end.
Proof.
  intros Hhost proto default.
  assert (Hlow : lower proto = proto).
  { subst proto. unfold effective_protocol.
    generalize (if truthy (req_protocol_override request)
                then match req_protocol_override request with
                     | Some p => p
                     | None => protocol self
                     end
                else protocol self).
    intros s. induction s as [|x s IH]; simpl; [reflexivity|].
    rewrite IH. f_equal.
    unfold lower_char. destruct (is_upper x) eqn:U; [|now rewrite U].
    unfold is_upper in U. apply andb_true_iff in U as [U1 U2].
    apply Nat.leb_le in U1, U2.
    pose proof (nat_ascii_bounded x) as B.
    unfold is_upper. rewrite nat_ascii_embedding by lia.
    replace (nat_of_ascii x + 32 <=? 90)%nat with false
      by (symmetry; apply Nat.leb_gt; lia).
    now rewrite andb_false_r. }
  split.
  - unfold get_uri. rewrite Hhost. fold proto.
    unfold HTTP_PORT, HTTPS_PORT.
    destruct (String.eqb proto "http"); reflexivity.
  - intros name port Hsession Hlib Hreads.
    assert (Hsel : select_connection self request
                   = match configured_proxy self with
                     | Some proxy =>
                         match py_int (proxy_port self) with
                         | inl e => inl e
                         | inr n => inr (socket_class self proto proxy n,
                                         Some (name, PortInt port))
                         end
                     | None => inr (socket_class self proto name port, None)
                     end
                   \/ exists suffix,
                       int_of_str suffix = Some port
                       /\ select_connection self request
                          = match configured_proxy self with
                            | Some proxy =>
                                match py_int (proxy_port self) with
                                | inl e => inl e
                                | inr n => inr (socket_class self proto proxy n,
                                                Some (name, PortStr suffix))
                                end
                            | None => inr (socket_class self proto name port, None)
                            end).
    { unfold select_connection.
      rewrite Hsession, Hlib, Hhost. cbn [negb]. fold proto. rewrite Hlow.
      unfold socket_class, HTTP_PORT, HTTPS_PORT. fold default.
      destruct Hreads as [(Hc & -> & ->)|(suffix & -> & Hc & Hint)].
      - left. rewrite Hc.
        destruct (configured_proxy self); reflexivity.
      - right. exists suffix. split; [exact Hint|].
        change (name ++ ":" ++ suffix) with (name ++ String ":" suffix).
        rewrite (contains_append ":" name (String ":" suffix)), contains_here,
          orb_true_r.
        assert (R : rpartition ":" (name ++ String ":" suffix)
                    = (name, String ":" EmptyString, suffix)).
        { unfold rpartition.
          assert (A : forall a, rsplit1 ":" (a ++ String ":" suffix)
                                = Some (a, suffix)).
          { assert (N : forall s, contains ":" s = false -> rsplit1 ":" s = None).
            { induction s as [|x s IH]; simpl; [reflexivity|].
              destruct (Ascii.eqb x ":"); [discriminate|].
              intros H. now rewrite (IH H). }
            induction a as [|x a IH]; simpl.
            - now rewrite (N suffix Hc).
            - now rewrite IH. }
          now rewrite A. }
        rewrite R.
        destruct (configured_proxy self); [reflexivity|].
        cbn [py_int]. now rewrite Hint. }
    unfold get_connection, tunnel_headers.
    destruct (configured_proxy self) as [proxy|].
    + intros n Hcred Hn. rewrite Hcred.
      destruct Hsel as [->|(suffix & Hint & ->)]; rewrite Hn; cbn [py_int];
        [reflexivity | now rewrite Hint].
    + destruct Hsel as [->|(suffix & Hint & ->)]; reflexivity.
Qed.

Lemma protocol_selects_port_and_class_witness :
  get_uri ftp_client example_request
  = inr "ftp://management.core.windows.net:443/a?x=1"
  /\ get_connection ftp_client example_request
     = inr (mkConnection
              (HTTPSConnection "management.core.windows.net" 443 None 65) None).
Proof.
  destruct (protocol_selects_port_and_class
              ftp_client example_request "management.core.windows.net" eq_refl)
    as [Huri Hconn].
  split; [exact Huri|].
  apply (Hconn "management.core.windows.net" 443%Z eq_refl eq_refl).
  left. repeat split.
Defined.

Example explicit_port_replaces_default :
  get_connection ftp_client explicit_port_request
  = inr (mkConnection (HTTPSConnection "localhost" 10000 None 65) None).
Proof. reflexivity. Qed.

Example upper_case_http_is_plain :
  get_connection (mkClient None "HTTP" None PortNone None None None 65 EmptyString true)
                 example_request
  = inr (mkConnection (HTTPConnection "management.core.windows.net" 80 65) None).
Proof. reflexivity. Qed.

(** C10 as stated fails when the host names a port: the connection is
    opened to that port, not to 443. *)
Lemma explicit_port_overrides_443 :
  effective_protocol default_client explicit_port_request = "https"
  /\ get_connection default_client explicit_port_request
     = inr (mkConnection (HTTPSConnection "localhost" 10000 None 65) None)
  /\ class_port (HTTPSConnection "localhost" 10000 None 65) <> Some 443%Z.
Proof. repeat split; try reflexivity. discriminate. Qed.

(** The session-backed and the platform transports get the protocol text
    and no port. *)
Lemma other_transports_get_the_protocol (self : _HTTPClient) (request : Request) :
  (forall s, request_session self = Some s ->
     select_connection self request
     = inr (RequestsConnection (req_host request) (effective_protocol self request)
                               s (timeout self),
            option_map (fun h => (h, proxy_port self)) (configured_proxy self)))
  /\ (request_session self = None -> use_httplib self = false ->
      select_connection self request
      = inr (WinHTTPConnection (req_host request) (cert_file self)
                               (effective_protocol self request) (timeout self),
             option_map (fun h => (h, proxy_port self)) (configured_proxy self))).
Proof.
  unfold select_connection. split.
  - intros s ->. reflexivity.
  - intros -> ->. reflexivity.
Qed.

(** ** The Host header under a tunnel *)

Lemma list_remove_absent (x : string) (l : list string) :
  ~ In x l -> list_remove x l = l.
Proof.
  induction l as [|y l IH]; simpl; intros H; [reflexivity|].
  destruct (String.eqb_spec y x) as [->|N]; [tauto|].
  f_equal. apply IH. tauto.
Qed.

Lemma list_remove_middle (x : string) (pre post : list string) :
  ~ In x pre -> list_remove x (pre ++ x :: post) = (pre ++ post)%list.
Proof.
  induction pre as [|y pre IH]; simpl; intros H.
  - now rewrite String.eqb_refl.
  - destruct (String.eqb_spec y x) as [->|N]; [tauto|].
    f_equal. apply IH. tauto.
Qed.

Lemma list_remove_length (x : string) (l : list string) :
  length (list_remove x l) <= length l.
Proof.
  induction l as [|y l IH]; simpl; [lia|].
  destruct (String.eqb y x); simpl; lia.
Qed.

(** The fuel given to the loop is enough: more of it changes nothing. *)
Lemma strip_host_loop_fuel (fuel : nat) :
  forall idx buffer extra,
    length buffer <= idx + fuel ->
    strip_host_loop (fuel + extra) idx buffer = strip_host_loop fuel idx buffer.
Proof.
  induction fuel as [|fuel IH]; intros idx buffer extra Hlen.
  - assert (N : nth_error buffer idx = None) by (apply nth_error_None; lia).
    destruct extra; simpl; [reflexivity | now rewrite N].
  - simpl. destruct (nth_error buffer idx) as [i|]; [|reflexivity].
    destruct (is_host_line i); apply IH.
    + pose proof (list_remove_length i buffer). lia.
    + lia.
Qed.

Lemma strip_host_loop_clean (fuel : nat) :
  forall idx buffer, no_host_line buffer -> strip_host_loop fuel idx buffer = buffer.
Proof.
  induction fuel as [|fuel IH]; intros idx buffer H; simpl; [reflexivity|].
  destruct (nth_error buffer idx) as [i|] eqn:E; [|reflexivity].
  apply nth_error_In in E.
  unfold no_host_line in H. rewrite Forall_forall in H.
  rewrite (H i E). apply IH. now apply Forall_forall.
Qed.

(** With one Host line in the buffer the loop removes exactly that line. *)
Lemma strip_host_loop_single (pre post : list string) (default : string) :
  no_host_line pre -> no_host_line post -> is_host_line default = true ->
  forall k idx fuel,
    idx + k = length pre -> k < fuel ->
    strip_host_loop fuel idx (pre ++ default :: post) = (pre ++ post)%list.
Proof.
  intros Hpre Hpost Hd.
  assert (Hnotin : ~ In default pre).
  { intros Hin. unfold no_host_line in Hpre. rewrite Forall_forall in Hpre.
    rewrite (Hpre _ Hin) in Hd. discriminate. }
  induction k as [|k IH]; intros idx fuel Hidx Hfuel;
    (destruct fuel as [|fuel]; [lia|]); simpl.
  - assert (idx = length pre) by lia. subst idx.
    rewrite nth_error_app2, Nat.sub_diag by lia. simpl.
    rewrite Hd, (list_remove_middle _ _ _ Hnotin).
    apply strip_host_loop_clean.
    apply Forall_app. split; assumption.
  - assert (Hlt : idx < length pre) by lia.
    rewrite nth_error_app1 by exact Hlt.
    destruct (nth_error pre idx) as [i|] eqn:E.
    + apply nth_error_In in E.
      unfold no_host_line in Hpre. rewrite Forall_forall in Hpre.
      rewrite (Hpre i E). apply IH; lia.
    + apply nth_error_None in E. lia.
Qed.

Lemma strip_host_lines_single (pre post : list string) (default : string) :
  no_host_line pre -> no_host_line post -> is_host_line default = true ->
  strip_host_lines (pre ++ default :: post) = (pre ++ post)%list.
Proof.
  intros Hpre Hpost Hd. unfold strip_host_lines.
  apply (strip_host_loop_single pre post default Hpre Hpost Hd (length pre) 0);
    [lia|].
  rewrite length_app. simpl. lia.
Qed.

Lemma fold_put_request_header (request_headers : list pair_t) (buffer : list string) :
  fold_left put_request_header request_headers buffer
  = (buffer ++ request_header_lines request_headers)%list.
Proof.
  revert buffer. induction request_headers as [|[n v] l IH]; intros buffer.
  - simpl. now rewrite app_nil_r.
  - cbn [fold_left]. rewrite IH.
    unfold put_request_header, request_header_lines, putheader. cbn [fst snd flat_map].
    destruct v as [v|]; [destruct (nonempty v)|]; cbn [app];
      now rewrite <- ?app_assoc.
Qed.

Lemma filter_clean (l : list string) :
  no_host_line l -> filter is_host_line l = [].
Proof.
  induction 1 as [|x l Hx Hl IH]; simpl; [reflexivity|].
  now rewrite Hx.
Qed.

Lemma host_header_is_host_line (target : string) :
  is_host_line ("Host: " ++ target) = true.
Proof. destruct target; reflexivity. Qed.

(** C8 (amended).  On the socket transport with a proxy set and one default
    Host line in the header buffer, [send_request_headers] removes that line
    and stages one Host header naming the tunnel target [host:port]; when
    none of the caller's headers is itself a Host header, this is the only
    Host header in what is sent. *)
Theorem tunnel_host_header_replaces_default
    (b : hop_behaviour) (self : _HTTPClient) (c : nat) (connection : Connection)
    (t : Tunnel) (pre post : list string) (default : string)
    (request_headers : list pair_t) :
  use_httplib self = true ->
  truthy (proxy_host self) = true ->
  request_session self = None ->
  conn_tunnel connection = Some t ->
  is_host_line default = true ->
  no_host_line pre ->
  no_host_line post ->
  no_host_line (request_header_lines request_headers) ->
  let host_header := "Host: " ++ tunnel_host t ++ ":" ++ str_of_Z (tunnel_port t) in
  let agent_header := "User-Agent: " ++ user_agent self in
  let sent := (pre ++ post ++ [host_header]
               ++ request_header_lines request_headers
               ++ [agent_header])%list in
  fst (send_request_headers b self c connection (pre ++ default :: post)
                            request_headers)
  = [EvEndHeaders c sent]
  /\ filter is_host_line sent = [host_header].
Proof.
  intros Hlib Hproxy Hsession Htunnel Hd Hpre Hpost Hreq host_header
         agent_header sent.
  split.
  - unfold send_request_headers, transport_call, staged_headers. cbn [fst].
    rewrite Hlib, Hproxy, Hsession. cbn [is_none andb].
    rewrite (strip_host_lines_single pre post default Hpre Hpost Hd).
    rewrite fold_put_request_header.
    unfold putheader, tunnel_target. rewrite Htunnel.
    subst sent host_header agent_header.
    now rewrite <- !app_assoc.
  - subst sent. rewrite !filter_app.
    rewrite (filter_clean pre Hpre), (filter_clean post Hpost),
            (filter_clean _ Hreq).
    subst host_header agent_header. cbn [filter].
    rewrite host_header_is_host_line. reflexivity.
Qed.

Lemma tunnel_host_header_replaces_default_witness :
  fst (send_request_headers
         (mkBehaviour None (mkRaw 200 "OK" [] None EmptyString))
         proxied_client 0 tunnelled_connection default_buffer
         [("x-ms-version", Some "2014-10-01")])
  = [EvEndHeaders 0
       ["GET /a HTTP/1.1"; "Accept-Encoding: identity";
        "Host: management.core.windows.net:443";
        "x-ms-version: 2014-10-01"; "User-Agent: azure-sdk"]]
  /\ filter is_host_line
       ["GET /a HTTP/1.1"; "Accept-Encoding: identity";
        "Host: management.core.windows.net:443";
        "x-ms-version: 2014-10-01"; "User-Agent: azure-sdk"]
     = ["Host: management.core.windows.net:443"].
Proof.
  apply (tunnel_host_header_replaces_default
           (mkBehaviour None (mkRaw 200 "OK" [] None EmptyString))
           proxied_client 0 tunnelled_connection
           (mkTunnel "management.core.windows.net" 443 None)
           ["GET /a HTTP/1.1"] ["Accept-Encoding: identity"]
           "Host: 192.168.0.100:6000"
           [("x-ms-version", Some "2014-10-01")]);
    try reflexivity; repeat constructor.
Defined.

(** C8 as stated fails when the caller's headers hold a Host header: it is
    written after the corrected one, and two Host headers are sent. *)
Lemma caller_host_header_is_sent_too :
  filter is_host_line
    (staged_headers proxied_client tunnelled_connection default_buffer
                    host_header_request)
  = ["Host: management.core.windows.net:443"; "Host: other.example.net"]
  /\ fst (send_request_headers
            (mkBehaviour None (mkRaw 200 "OK" [] None EmptyString))
            proxied_client 0 tunnelled_connection default_buffer
            host_header_request)
     = [EvEndHeaders 0
          ["GET /a HTTP/1.1"; "Accept-Encoding: identity";
           "Host: management.core.windows.net:443";
           "x-ms-version: 2014-10-01"; "Host: other.example.net";
           "User-Agent: azure-sdk"]].
Proof. split; reflexivity. Qed.

(** ** One hop *)

Section Traces.

Variable P : event -> Prop.

Lemma bind_trace {A B : Type} (m : M A) (k : A -> M B) :
  Forall P (fst m) -> (forall a, Forall P (fst (k a))) ->
  Forall P (fst (bind m k)).
Proof.
  intros Hm Hk. destruct m as [t [e|a]]; simpl in *; [exact Hm|].
  specialize (Hk a). destruct (k a) as [t' r]; simpl in *.
  apply Forall_app; split; assumption.
Qed.

Lemma ret_trace {A : Type} (a : A) : Forall P (fst (ret a)).
Proof. constructor. Qed.

Lemma raise_trace {A : Type} (e : exn) : Forall P (fst (@raise A e)).
Proof. constructor. Qed.

Lemma call_trace (b : hop_behaviour) (s : stage) (ev : event) :
  P ev -> Forall P (fst (transport_call b s ev)).
Proof. intros H. repeat constructor. exact H. Qed.

End Traces.

Lemma redirect_request_silent (hs : list (string * string)) (request : Request) :
  fst (redirect_request hs request) = [].
Proof.
  unfold redirect_request.
  destruct (dict_get "location" hs) as [loc|]; [|reflexivity].
  destruct (UrlParse.urlparse loc) as [e|u]; [reflexivity|].
  unfold bind, lift.
  destruct (_update_request_uri_query _) as [r [p q]]. reflexivity.
Qed.

(** Every call of the [try] body is made on the hop's own connection. *)
Lemma attempt_trace (T : Transport) (self : _HTTPClient) (c : nat)
    (connection : Connection) (request : Request) :
  Forall (hop_event c) (fst (attempt T self c connection request)).
Proof.
  unfold attempt.
  repeat (apply bind_trace; [|intros ?]);
    unfold send_request_headers, send_request_body, read_body;
    repeat match goal with
           | |- Forall _ (fst (if ?x then _ else _)) => destruct x
           | |- Forall _ (fst (match ?x with Some _ => _ | None => _ end)) => destruct x
           | |- Forall _ (fst (bind _ _)) => apply bind_trace; [|intros ?]
           | |- Forall _ (fst (transport_call _ _ _)) =>
               apply call_trace; split; reflexivity
           | |- Forall _ (fst (ret _)) => apply ret_trace
           | |- Forall _ (fst (raise _)) => apply raise_trace
           | |- Forall _ (fst (redirect_request _ _)) =>
               rewrite redirect_request_silent; constructor
           end.
Qed.
Lemma snd_bind {A B : Type} (m : M A) (k : A -> M B) (a : A) :
  snd m = inr a -> snd (bind m k) = snd (k a).
Proof.
  destruct m as [t [e|a']]; simpl; intros H; [discriminate|].
  injection H as ->. destruct (k a); reflexivity.
Qed.

Lemma fst_bind {A B : Type} (m : M A) (k : A -> M B) (a : A) :
  snd m = inr a -> fst (bind m k) = (fst m ++ fst (k a))%list.
Proof.
  destruct m as [t [e|a']]; simpl; intros H; [discriminate|].
  injection H as ->. destruct (k a); reflexivity.
Qed.

Lemma read_body_working (resp : RawResponse) (c : nat) :
  snd (read_body (working resp) c resp) = inr (declared_body resp)
  /\ fst (read_body (working resp) c resp)
     = match resp_length resp with
       | None => [EvRead c None]
       | Some n => if (0 <? n)%Z then [EvRead c (Some n)] else []
       end.
Proof.
  unfold read_body, declared_body, resp_read.
  destruct (resp_length resp) as [n|]; [|split; reflexivity].
  rewrite Z.gtb_ltb. destruct (0 <? n)%Z; split; reflexivity.
Qed.

Lemma send_request_body_working (resp : RawResponse) (c : nat)
    (connection : Connection) (request_body : option string) :
  snd (send_request_body (working resp) c connection request_body) = inr tt.
Proof.
  unfold send_request_body.
  destruct (truthy request_body); [reflexivity|].
  destruct (negb (is_httplib_connection connection)); reflexivity.
Qed.

(** A hop over a transport that does not fail ends as the status says. *)
Lemma attempt_working (T : Transport) (self : _HTTPClient) (c : nat)
    (connection : Connection) (request : Request) (resp : RawResponse) :
  tr_behaviour T c request = working resp ->
  snd (attempt T self c connection request) = hop_outcome resp request.
Proof.
  intros Hb. unfold attempt. rewrite Hb.
  rewrite (snd_bind _ _ tt) by reflexivity.
  rewrite (snd_bind _ _ tt)
    by (destruct (negb (use_httplib self) && _); reflexivity).
  rewrite (snd_bind _ _ tt) by reflexivity.
  rewrite (snd_bind _ _ tt) by apply send_request_body_working.
  rewrite (snd_bind _ _ tt) by reflexivity.
  cbn [hb_response working].
  rewrite (snd_bind _ _ (declared_body resp)) by apply read_body_working.
  unfold hop_outcome.
  destruct (resp_status resp =? 307)%Z.
  - destruct (redirect_request _ request) as [t [e|r]]; reflexivity.
  - destruct (resp_status resp >=? 300)%Z; reflexivity.
Qed.

(** ** The request loop *)

Section Loop.

Variable T : Transport.
Variable self : _HTTPClient.

(** Every result of the function is an execution, *)
Lemma perform_request_runs (fuel : nat) :
  forall next request r,
    perform_request fuel T self next request = Some r ->
    runs T self next request r.
Proof.
  induction fuel as [|fuel IH]; intros next request r H; [discriminate|].
  simpl in H.
  destruct (get_connection self request) as [e|connection] eqn:G.
  - injection H as <-. now constructor.
  - destruct (attempt T self next connection request) as [t [e|[response|request']]] eqn:A.
    + injection H as <-. now apply run_raise.
    + injection H as <-. now apply run_return.
    + destruct (perform_request fuel T self (S next) request') as [r'|] eqn:R;
        [|discriminate].
      injection H as <-. eapply run_redirect; eauto.
Qed.

(** more fuel never changes a result, *)
Lemma perform_request_more_fuel (fuel : nat) :
  forall next request r,
    perform_request fuel T self next request = Some r ->
    perform_request (S fuel) T self next request = Some r.
Proof.
  induction fuel as [|fuel IH]; intros next request r H; [discriminate|].
  remember (S fuel) as n. simpl. subst n. simpl in H.
  destruct (get_connection self request) as [e|connection]; [exact H|].
  destruct (attempt T self next connection request) as [t [e|[response|request']]];
    try exact H.
  destruct (perform_request fuel T self (S next) request') as [r'|] eqn:R;
    [|discriminate].
  now rewrite (IH _ _ _ R).
Qed.

(** and every execution is the result of the function for some fuel. *)
Lemma runs_perform_request (next : nat) (request : Request) (r : Run) :
  runs T self next request r ->
  exists fuel, perform_request fuel T self next request = Some r.
Proof.
  induction 1 as [next request e G
                 |next request connection t e G A
                 |next request connection t response G A
                 |next request connection t request' r G A _ [fuel IH]].
  - exists 1. simpl. now rewrite G.
  - exists 1. simpl. now rewrite G, A.
  - exists 1. simpl. now rewrite G, A.
  - exists (S fuel). simpl. now rewrite G, A, IH.
Qed.

Lemma closes_app (c : nat) (t1 t2 : list event) :
  closes c (t1 ++ t2) = closes c t1 + closes c t2.
Proof. unfold closes. now rewrite filter_app, length_app. Qed.

Lemma closes_hop_events (c c' : nat) (t : list event) :
  Forall (hop_event c') t -> closes c t = 0.
Proof.
  unfold closes. induction 1 as [|e t [_ He] _ IH]; [reflexivity|].
  simpl. destruct e; simpl in *; try discriminate; exact IH.
Qed.

Lemma closes_other (c : nat) (t : list event) :
  Forall (fun e => c < event_conn e) t -> closes c t = 0.
Proof.
  unfold closes. induction 1 as [|e t He _ IH]; [reflexivity|].
  simpl. destruct e; simpl in *; try exact IH.
  destruct (Nat.eqb_spec c0 c); [lia | exact IH].
Qed.

Lemma hop_events_not_open (c c' : nat) (connection : Connection) (t : list event) :
  Forall (hop_event c) t -> ~ In (EvOpen c' connection) t.
Proof.
  intros H Hin. rewrite Forall_forall in H.
  destruct (H _ Hin) as [_ He]. discriminate.
Qed.

(** Connections are numbered upwards from [next]. *)
Lemma runs_numbering (next : nat) (request : Request) (r : Run) :
  runs T self next request r ->
  next <= run_next r
  /\ Forall (fun e => next <= event_conn e < run_next r) (run_trace r).
Proof.
  induction 1 as [next request e G
                 |next request connection t e G A
                 |next request connection t response G A
                 |next request connection t request' r G A _ [IHn IHt]];
    cbn [run_next run_trace].
  - split; [lia | constructor].
  - pose proof (attempt_trace T self next connection request) as Ht.
    rewrite A in Ht. cbn [fst] in Ht.
    split; [lia|]. constructor; [simpl; lia|].
    apply Forall_app; split; [|repeat constructor; simpl; lia].
    eapply Forall_impl; [|exact Ht]. intros e' [-> _]. lia.
  - pose proof (attempt_trace T self next connection request) as Ht.
    rewrite A in Ht. cbn [fst] in Ht.
    split; [lia|]. constructor; [simpl; lia|].
    apply Forall_app; split; [|repeat constructor; simpl; lia].
    eapply Forall_impl; [|exact Ht]. intros e' [-> _]. lia.
  - pose proof (attempt_trace T self next connection request) as Ht.
    rewrite A in Ht. cbn [fst] in Ht.
    split; [lia|]. constructor; [simpl; lia|].
    apply Forall_app; split.
    + eapply Forall_impl; [|exact Ht]. intros e' [-> _]. lia.
    + apply Forall_app; split; [|repeat constructor; simpl; lia].
      eapply Forall_impl; [|exact IHt]. simpl. intros e' ?. lia.
Qed.

End Loop.

Lemma bind_inr {A B : Type} (m : M A) (k : A -> M B) (t : list event) (b : B) :
  bind m k = (t, inr b) ->
  exists t1 a t2, m = (t1, inr a) /\ k a = (t2, inr b) /\ t = (t1 ++ t2)%list.
Proof.
  destruct m as [t1 [e|a]]; simpl; [discriminate|].
  destruct (k a) as [t2 r] eqn:K. intros H. injection H as <- ->.
  exists t1, a, t2. auto.
Qed.

(** A hop returns a response only for a status below 300. *)
Lemma attempt_return (T : Transport) (self : _HTTPClient) (c : nat)
    (connection : Connection) (request : Request) (t : list event)
    (response : HTTPResponse) :
  attempt T self c connection request = (t, inr (Return response)) ->
  (status response <> 307 /\ status response < 300)%Z.
Proof.
  unfold attempt. intros H.
  repeat (apply bind_inr in H; destruct H as (? & ? & ? & _ & H & _)).
  destruct (resp_status _ =? 307)%Z eqn:E307.
  - apply bind_inr in H. destruct H as (? & ? & ? & _ & H & _). discriminate.
  - destruct (resp_status _ >=? 300)%Z eqn:E300; [discriminate|].
    injection H as _ <-. cbn [status].
    apply Z.eqb_neq in E307. rewrite Z.geb_leb in E300. apply Z.leb_gt in E300.
    split; assumption.
Qed.

Section LoopInvariants.

Variable T : Transport.
Variable self : _HTTPClient.

Lemma closes_cons (c : nat) (e : event) (t : list event) :
  closes c (e :: t) = (if is_close c e then 1 else 0) + closes c t.
Proof. unfold closes. simpl. destruct (is_close c e); reflexivity. Qed.

Lemma closes_positive (c : nat) (t : list event) :
  0 < closes c t -> In (EvClose c) t.
Proof.
  induction t as [|e t IH]; [unfold closes; simpl; lia|].
  rewrite closes_cons. destruct (is_close c e) eqn:E.
  - intros _. left. destruct e; try discriminate.
    simpl in E. apply Nat.eqb_eq in E. now subst.
  - intros H. right. apply IH. lia.
Qed.

(** A one-hop trace closes its connection once. *)
Lemma closes_one_hop (c : nat) (connection : Connection) (t : list event) :
  Forall (hop_event c) t ->
  closes c (EvOpen c connection :: t ++ [EvClose c]) = 1.
Proof.
  intros Ht. rewrite closes_cons, closes_app, (closes_hop_events c c t Ht).
  unfold closes. simpl. now rewrite Nat.eqb_refl.
Qed.

(** Every connection obtained during an execution is closed once in it. *)
Lemma runs_close_once (next : nat) (request : Request) (r : Run) :
  runs T self next request r ->
  forall c connection,
    In (EvOpen c connection) (run_trace r) -> closes c (run_trace r) = 1.
Proof.
  induction 1 as [next request e G
                 |next request connection t e G A
                 |next request connection t response G A
                 |next request connection t request' r G A R IH];
    cbn [run_trace]; intros c conn Hin.
  - destruct Hin.
  - pose proof (attempt_trace T self next connection request) as Ht.
    rewrite A in Ht. cbn [fst] in Ht.
    destruct Hin as [Hin|Hin].
    + injection Hin as <- _. now apply closes_one_hop.
    + apply in_app_or in Hin as [Hin|[Hin|[]]]; [|discriminate].
      exact (False_ind _ (hop_events_not_open _ _ _ _ Ht Hin)).
  - pose proof (attempt_trace T self next connection request) as Ht.
    rewrite A in Ht. cbn [fst] in Ht.
    destruct Hin as [Hin|Hin].
    + injection Hin as <- _. now apply closes_one_hop.
    + apply in_app_or in Hin as [Hin|[Hin|[]]]; [|discriminate].
      exact (False_ind _ (hop_events_not_open _ _ _ _ Ht Hin)).
  - pose proof (attempt_trace T self next connection request) as Ht.
    rewrite A in Ht. cbn [fst] in Ht.
    destruct (runs_numbering T self _ _ _ R) as [_ Hnum].
    rewrite closes_cons, !closes_app, (closes_hop_events c next t Ht).
    destruct Hin as [Hin|Hin].
    + injection Hin as <- _.
      rewrite (closes_other next (run_trace r)).
      * unfold closes. simpl. now rewrite Nat.eqb_refl.
      * eapply Forall_impl; [|exact Hnum]. simpl. intros; lia.
    + apply in_app_or in Hin as [Hin|Hin];
        [exact (False_ind _ (hop_events_not_open _ _ _ _ Ht Hin))|].
      apply in_app_or in Hin as [Hin|[Hin|[]]]; [|discriminate].
      rewrite (IH _ _ Hin).
      rewrite Forall_forall in Hnum. specialize (Hnum _ Hin). simpl in Hnum.
      unfold closes. simpl.
      destruct (Nat.eqb_spec next c); [lia | reflexivity].
Qed.

(** The trace of an execution that got its connection: the connection is
    obtained first and closed last, and whatever is opened in between is
    closed in between. *)
Lemma runs_bracket (next : nat) (request : Request) (r : Run)
    (connection : Connection) :
  runs T self next request r ->
  get_connection self request = inr connection ->
  exists mid,
    run_trace r = (EvOpen next connection :: mid ++ [EvClose next])%list
    /\ closes next mid = 0
    /\ forall c' connection',
         In (EvOpen c' connection') mid -> In (EvClose c') mid.
Proof.
  intros R G.
  destruct R as [next request e G'
                |next request connection' t e G' A
                |next request connection' t response G' A
                |next request connection' t request' r G' A R];
    rewrite G in G'; [discriminate| | |]; injection G' as <-;
    pose proof (attempt_trace T self next connection request) as Ht;
    rewrite A in Ht; cbn [fst] in Ht; cbn [run_trace].
  - exists t. split; [reflexivity|]. split; [now apply (closes_hop_events next next)|].
    intros c' conn' Hin. exact (False_ind _ (hop_events_not_open _ _ _ _ Ht Hin)).
  - exists t. split; [reflexivity|]. split; [now apply (closes_hop_events next next)|].
    intros c' conn' Hin. exact (False_ind _ (hop_events_not_open _ _ _ _ Ht Hin)).
  - exists (t ++ run_trace r)%list. split; [now rewrite <- app_assoc|].
    destruct (runs_numbering T self _ _ _ R) as [_ Hnum].
    split.
    + rewrite closes_app, (closes_hop_events next next t Ht).
      rewrite (closes_other next (run_trace r)); [reflexivity|].
      eapply Forall_impl; [|exact Hnum]. simpl. intros; lia.
    + intros c' conn' Hin. apply in_or_app. right.
      apply in_app_or in Hin as [Hin|Hin];
        [exact (False_ind _ (hop_events_not_open _ _ _ _ Ht Hin))|].
      apply closes_positive. rewrite (runs_close_once _ _ _ R _ _ Hin). lia.
Qed.

(** No execution returns a response whose status is 307. *)
Lemma runs_never_return_307 (next : nat) (request : Request) (r : Run) :
  runs T self next request r ->
  forall response, run_outcome r = inr response -> status response <> 307%Z.
Proof.
  induction 1 as [next request e G
                 |next request connection t e G A
                 |next request connection t response G A
                 |next request connection t request' r G A R IH];
    cbn [run_outcome]; intros resp H; try discriminate.
  - injection H as <-. apply (attempt_return _ _ _ _ _ _ _ A).
  - now apply IH.
Qed.

End LoopInvariants.

(** ** One hop over a working transport *)

Lemma attempt_working_trace (T : Transport) (self : _HTTPClient) (c : nat)
    (connection : Connection) (request : Request) (resp : RawResponse) :
  tr_behaviour T c request = working resp ->
  fst (attempt T self c connection request)
  = hop_calls T self c connection request resp.
Proof.
  intros Hb. unfold attempt, hop_calls. rewrite Hb.
  rewrite (fst_bind _ _ tt) by reflexivity. f_equal.
  rewrite (fst_bind _ _ tt)
    by (destruct (negb (use_httplib self) && _); reflexivity).
  f_equal; [destruct (negb (use_httplib self) && _); reflexivity|].
  rewrite (fst_bind _ _ tt) by reflexivity. f_equal.
  rewrite (fst_bind _ _ tt) by apply send_request_body_working.
  f_equal.
  { unfold send_request_body. destruct (truthy (req_body request)); [reflexivity|].
    destruct (negb (is_httplib_connection connection)); reflexivity. }
  rewrite (fst_bind _ _ tt) by reflexivity. f_equal.
  cbn [hb_response working].
  rewrite (fst_bind _ _ (declared_body resp)) by apply read_body_working.
  destruct (read_body_working resp c) as [_ ->].
  rewrite <- (app_nil_r (match resp_length resp with
                         | None => _ | Some n => _ end)) at 2.
  f_equal.
  destruct (resp_status resp =? 307)%Z.
  - pose proof (redirect_request_silent (lower_names (resp_headers resp)) request) as S.
    destruct (redirect_request _ request) as [t [e|r]]; cbn [fst] in S; subst t;
      reflexivity.
  - destruct (resp_status resp >=? 300)%Z; reflexivity.
Qed.

Lemma attempt_working_eq (T : Transport) (self : _HTTPClient) (c : nat)
    (connection : Connection) (request : Request) (resp : RawResponse) :
  tr_behaviour T c request = working resp ->
  attempt T self c connection request
  = (hop_calls T self c connection request resp, hop_outcome resp request).
Proof.
  intros Hb.
  rewrite <- (attempt_working_trace T self c connection request resp Hb).
  rewrite <- (attempt_working T self c connection request resp Hb).
  now destruct (attempt T self c connection request).
Qed.

Lemma requests_issued_one_hop (T : Transport) (self : _HTTPClient) (c : nat)
    (connection : Connection) (request : Request) (resp : RawResponse) :
  requests_issued (EvOpen c connection
                   :: hop_calls T self c connection request resp ++ [EvClose c])
  = 1.
Proof.
  unfold requests_issued, hop_calls.
  destruct (negb (use_httplib self) && _), (truthy (req_body request)),
    (negb (is_httplib_connection connection)), (resp_length resp) as [n|];
    try destruct (0 <? n)%Z; reflexivity.
Qed.

Lemma reads_one_hop (T : Transport) (self : _HTTPClient) (c : nat)
    (connection : Connection) (request : Request) (resp : RawResponse) :
  reads c (EvOpen c connection
           :: hop_calls T self c connection request resp ++ [EvClose c])
  = match resp_length resp with
    | None => [None]
    | Some n => if (0 <? n)%Z then [Some n] else []
    end.
Proof.
  unfold reads, hop_calls.
  destruct (negb (use_httplib self) && _), (truthy (req_body request)),
    (negb (is_httplib_connection connection)), (resp_length resp) as [n|];
    try destruct (0 <? n)%Z; simpl; rewrite ?Nat.eqb_refl; reflexivity.
Qed.

Lemma lower_names_values (hs : list (string * string)) :
  map snd (lower_names hs) = map snd hs
  /\ map fst (lower_names hs) = map lower (map fst hs)
  /\ length (lower_names hs) = length hs.
Proof.
  unfold lower_names. rewrite !map_map, length_map. auto.
Qed.

Lemma take_length (n : nat) (s : string) :
  n <= String.length s -> String.length (take n s) = n.
Proof.
  revert s. induction n as [|n IH]; intros s H; [reflexivity|].
  destruct s as [|x s]; simpl in *; [lia|].
  rewrite IH; lia.
Qed.

(** ** The claims about [perform_request] *)

(** C1.  When the transport answers with a status in [200, 300),
    [perform_request] returns a response with the status, the reason and the
    body of the transport's response and with its headers, names in lower
    case, values and order unchanged.  One connection is used. *)
Theorem perform_request_returns_success
    (fuel : nat) (T : Transport) (self : _HTTPClient) (next : nat)
    (request : Request) (connection : Connection) (resp : RawResponse) :
  get_connection self request = inr connection ->
  tr_behaviour T next request = working resp ->
  (200 <= resp_status resp < 300)%Z ->
  perform_request (S fuel) T self next request
  = Some (mkRun (S next)
            (EvOpen next connection
             :: hop_calls T self next connection request resp ++ [EvClose next])
            request
            (inr (mkResponse (resp_status resp) (resp_reason resp)
                             (lower_names (resp_headers resp))
                             (declared_body resp))))
  /\ map snd (lower_names (resp_headers resp)) = map snd (resp_headers resp)
  /\ map fst (lower_names (resp_headers resp))
     = map lower (map fst (resp_headers resp)).
Proof.
  intros G Hb [Hlo Hhi].
  split; [|split; apply lower_names_values].
  cbn [perform_request]. rewrite G, (attempt_working_eq _ _ _ _ _ _ Hb).
  unfold hop_outcome.
  replace (resp_status resp =? 307)%Z with false by (symmetry; apply Z.eqb_neq; lia).
  replace (resp_status resp >=? 300)%Z with false
    by (symmetry; rewrite Z.geb_leb; apply Z.leb_gt; lia).
  reflexivity.
Qed.

Lemma perform_request_returns_success_witness :
  (200 <= resp_status ok_response < 300)%Z
  /\ exists t,
       perform_request 1 (always (working ok_response)) default_client 0 plain_request
       = Some (mkRun 1 t plain_request
                 (inr (mkResponse 200 "OK"
                         [("content-type", "application/xml")] (Some "<a>")))).
Proof.
  split; [simpl; lia|].
  eexists.
  apply (perform_request_returns_success 0 (always (working ok_response))
           default_client 0 plain_request plain_connection ok_response);
    [reflexivity | reflexivity | simpl; lia].
Defined.

(** C2.  When the transport answers with a status of 300 or more other than
    307, [perform_request] raises an [HTTPError] with the status, the reason,
    the headers (names in lower case) and the body of that response; a single
    request is issued, on a single connection. *)
Theorem perform_request_raises_http_error
    (fuel : nat) (T : Transport) (self : _HTTPClient) (next : nat)
    (request : Request) (connection : Connection) (resp : RawResponse) :
  get_connection self request = inr connection ->
  tr_behaviour T next request = working resp ->
  (300 <= resp_status resp)%Z ->
  resp_status resp <> 307%Z ->
  exists t,
    perform_request (S fuel) T self next request
    = Some (mkRun (S next) t request
              (inl (HTTPError (resp_status resp) (resp_reason resp)
                              (lower_names (resp_headers resp))
                              (declared_body resp))))
    /\ requests_issued t = 1.
Proof.
  intros G Hb Hlo Hne.
  exists (EvOpen next connection
          :: hop_calls T self next connection request resp ++ [EvClose next])%list.
  split; [|apply requests_issued_one_hop].
  cbn [perform_request]. rewrite G, (attempt_working_eq _ _ _ _ _ _ Hb).
  unfold hop_outcome.
  replace (resp_status resp =? 307)%Z with false by (symmetry; now apply Z.eqb_neq).
  replace (resp_status resp >=? 300)%Z with true
    by (symmetry; rewrite Z.geb_leb; apply Z.leb_le; lia).
  reflexivity.
Qed.

Lemma perform_request_raises_http_error_witness :
  exists t,
    perform_request 1 (always (working not_found_response)) default_client 0
                    plain_request
    = Some (mkRun 1 t plain_request
              (inl (HTTPError 404 "Not Found" [("content-length", "9")]
                              (Some "not found"))))
    /\ requests_issued t = 1.
Proof.
  apply (perform_request_raises_http_error 0 (always (working not_found_response))
           default_client 0 plain_request plain_connection not_found_response);
    [reflexivity | reflexivity | simpl; lia | discriminate].
Defined.

Lemma update_returns_fields (request : Request) :
  snd (_update_request_uri_query request)
  = (req_path (fst (_update_request_uri_query request)),
     req_query (fst (_update_request_uri_query request))).
Proof. reflexivity. Qed.

Lemma update_keeps_fields (request : Request) :
  req_method (fst (_update_request_uri_query request)) = req_method request
  /\ req_host (fst (_update_request_uri_query request)) = req_host request
  /\ req_headers (fst (_update_request_uri_query request)) = req_headers request
  /\ req_body (fst (_update_request_uri_query request)) = req_body request
  /\ req_protocol_override (fst (_update_request_uri_query request))
     = req_protocol_override request.
Proof.
  unfold _update_request_uri_query. cbn [fst].
  destruct (contains "?" (req_path request)).
  - destruct (partition "?" (req_path request)) as [[p sep] qs].
    destruct (nonempty qs); cbn [set_path set_query req_query req_path];
      match goal with
      | |- context [match ?l with [] => _ | _ :: _ => _ end] => destruct l
      end; repeat split; reflexivity.
  - cbn [set_path set_query req_query req_path].
    destruct (req_query request); repeat split; reflexivity.
Qed.

Lemma assign_path_query (request : Request) :
  set_query (req_query request) (set_path (req_path request) request) = request.
Proof. now destruct request. Qed.

(** Lines 278-281 for a [location] header that parses. *)
Lemma redirect_request_parsed (hs : list (string * string)) (request : Request)
    (location : string) (new_url : UrlParse.ParseResult) :
  dict_get "location" hs = Some location ->
  UrlParse.urlparse location = inr new_url ->
  redirect_request hs request
  = ([], inr (redirected request (UrlParse.hostname new_url)
                         (UrlParse.path new_url))).
Proof.
  intros Hloc Hurl. unfold redirect_request, redirected.
  rewrite Hloc, Hurl. unfold bind, lift.
  pose proof (update_returns_fields
                (set_path (UrlParse.path new_url)
                          (set_host (UrlParse.hostname new_url) request))) as E.
  destruct (_update_request_uri_query _) as [r [p q]].
  cbn [fst snd] in *. injection E as -> ->.
  unfold ret. now rewrite assign_path_query.
Qed.

(** C3.  When the transport answers 307 with a [location] header that is
    an absolute URL, the request gets the host and the path of that URL, the
    query normaliser is run on it, and [perform_request] is called again on
    the same request (method, headers and body untouched) with a new
    connection; the result of the call is the result of that second call.  A
    response with status 307 is never returned. *)
Theorem perform_request_follows_redirect
    (fuel : nat) (T : Transport) (self : _HTTPClient) (next : nat)
    (request : Request) (connection : Connection) (resp : RawResponse)
    (location : string) (new_url : UrlParse.ParseResult) (host : string) :
  get_connection self request = inr connection ->
  tr_behaviour T next request = working resp ->
  resp_status resp = 307%Z ->
  dict_get "location" (lower_names (resp_headers resp)) = Some location ->
  UrlParse.urlparse location = inr new_url ->
  UrlParse.hostname new_url = Some host ->
  let request' :=
    fst (_update_request_uri_query
           (set_path (UrlParse.path new_url) (set_host (Some host) request))) in
  (req_host request' = Some host
   /\ req_method request' = req_method request
   /\ req_headers request' = req_headers request
   /\ req_body request' = req_body request)
  /\ perform_request (S fuel) T self next request
     = match perform_request fuel T self (S next) request' with
       | None => None
       | Some r =>
           Some (mkRun (run_next r)
                   (EvOpen next connection
                    :: hop_calls T self next connection request resp
                    ++ run_trace r ++ [EvClose next])
                   (run_request r) (run_outcome r))
       end
  /\ forall r response,
       perform_request (S fuel) T self next request = Some r ->
       run_outcome r = inr response ->
       status response <> 307%Z.
Proof.
  intros G Hb Hs Hloc Hurl Hhost request'.
  split; [|split].
  - subst request'.
    destruct (update_keeps_fields
                (set_path (UrlParse.path new_url) (set_host (Some host) request)))
      as (Hm & Hh & Hhd & Hbd & _).
    rewrite Hm, Hh, Hhd, Hbd. repeat split; reflexivity.
  - cbn [perform_request]. rewrite G, (attempt_working_eq _ _ _ _ _ _ Hb).
    unfold hop_outcome. rewrite Hs. cbn [Z.eqb Pos.eqb].
    rewrite (redirect_request_parsed _ _ _ _ Hloc Hurl), Hhost. cbn [snd].
    reflexivity.
  - intros r response Hr. apply (runs_never_return_307 T self next request r).
    now apply (perform_request_runs T self (S fuel)).
Qed.

Lemma perform_request_follows_redirect_witness :
  exists t,
    perform_request 2 redirect_once default_client 0 plain_request
    = Some (mkRun 2 t
              (mkRequest "GET" (Some "host2") "/newpath" [] [] None None)
              (inr (mkResponse 200 "OK" [("content-type", "application/xml")]
                               (Some "<a>")))).
Proof.
  eexists.
  refine (eq_trans
            (proj1 (proj2
               (perform_request_follows_redirect 1 redirect_once default_client 0
                  plain_request plain_connection redirect_response
                  "https://host2/newpath"
                  (UrlParse.mkParse "https" "host2" "/newpath" EmptyString EmptyString EmptyString)
                  "host2" eq_refl eq_refl eq_refl eq_refl eq_refl eq_refl)))
            _).
  reflexivity.
Defined.

Ltac list_eq :=
  repeat (rewrite <- app_assoc || rewrite <- app_comm_cons); reflexivity.

(** Every execution leaves a nested trace. *)
Lemma runs_nested (T : Transport) (self : _HTTPClient) (next : nat)
    (request : Request) (r : Run) :
  runs T self next request r -> nested next (run_trace r).
Proof.
  induction 1 as [next request e G
                 |next request connection t e G A
                 |next request connection t response G A
                 |next request connection t request' r G A R IH];
    cbn [run_trace]; [constructor| | |];
    pose proof (attempt_trace T self next connection request) as Ht;
    rewrite A in Ht; cbn [fst] in Ht.
  - apply (nested_hop next connection t [] Ht). constructor.
  - apply (nested_hop next connection t [] Ht). constructor.
  - now apply nested_hop.
Qed.

Lemma nested_numbering (c : nat) (t : list event) :
  nested c t -> Forall (fun e => c <= event_conn e) t.
Proof.
  induction 1 as [c|c connection hop inner Hhop _ IH]; [constructor|].
  constructor; [simpl; lia|].
  apply Forall_app; split.
  - eapply Forall_impl; [|exact Hhop]. intros e [-> _]. lia.
  - apply Forall_app; split; [|repeat constructor; simpl; lia].
    eapply Forall_impl; [|exact IH]. simpl. intros e He. lia.
Qed.

(** In a nested trace a connection is closed after it is obtained. *)
Lemma nested_open_close (c : nat) (t : list event) :
  nested c t ->
  forall c' connection',
    In (EvOpen c' connection') t ->
    exists a b d,
      t = (a ++ EvOpen c' connection' :: b ++ EvClose c' :: d)%list.
Proof.
  induction 1 as [c|c connection hop inner Hhop _ IH]; intros c' conn' Hin;
    [destruct Hin|].
  destruct Hin as [Hin|Hin].
  - injection Hin as <- <-.
    exists [], (hop ++ inner)%list, []. cbn [app]. list_eq.
  - apply in_app_or in Hin as [Hin|Hin];
      [exact (False_ind _ (hop_events_not_open _ _ _ _ Hhop Hin))|].
    apply in_app_or in Hin as [Hin|[Hin|[]]]; [|discriminate].
    destruct (IH _ _ Hin) as (a & b & d & ->).
    exists (EvOpen c connection :: hop ++ a)%list, b, (d ++ [EvClose c])%list.
    list_eq.
Qed.

(** In a nested trace, of two connections the one obtained later is closed
    first. *)
Lemma nested_order (c : nat) (t : list event) :
  nested c t ->
  forall c1 c2 conn1 conn2,
    c1 < c2 ->
    In (EvOpen c1 conn1) t ->
    In (EvOpen c2 conn2) t ->
    exists l1 l2 l3 l4 l5,
      t = (l1 ++ EvOpen c1 conn1 :: l2 ++ EvOpen c2 conn2 :: l3
              ++ EvClose c2 :: l4 ++ EvClose c1 :: l5)%list.
Proof.
  induction 1 as [c|c connection hop inner Hhop Hinner IH];
    intros c1 c2 conn1 conn2 Hlt H1 H2; [destruct H1|].
  pose proof (nested_numbering _ _ Hinner) as Hnum.
  rewrite Forall_forall in Hnum.
  assert (Hin2 : c < c2 -> In (EvOpen c2 conn2) inner).
  { intros Hc. destruct H2 as [H2|H2]; [injection H2 as -> _; lia|].
    apply in_app_or in H2 as [H2|H2];
      [exact (False_ind _ (hop_events_not_open _ _ _ _ Hhop H2))|].
    apply in_app_or in H2 as [H2|[H2|[]]]; [exact H2 | discriminate]. }
  destruct H1 as [H1|H1].
  - injection H1 as <- <-.
    destruct (nested_open_close _ _ Hinner _ _ (Hin2 Hlt)) as (a & b & d & ->).
    exists [], (hop ++ a)%list, b, d, [].
    cbn [app]. list_eq.
  - apply in_app_or in H1 as [H1|H1];
      [exact (False_ind _ (hop_events_not_open _ _ _ _ Hhop H1))|].
    apply in_app_or in H1 as [H1|[H1|[]]]; [|discriminate].
    pose proof (Hnum _ H1) as Hc1. simpl in Hc1.
    assert (Hc : c < c2) by lia.
    destruct (IH _ _ _ _ Hlt H1 (Hin2 Hc)) as (l1 & l2 & l3 & l4 & l5 & ->).
    exists (EvOpen c connection :: hop ++ l1)%list, l2, l3, l4,
      (l5 ++ [EvClose c])%list.
    list_eq.
Qed.

(** C4 (amended).  An execution that got its connection closes it as its
    last step, whatever the result, and not before: the connection is closed
    once, at the end.  When a redirect is followed, the connections of the
    following hops are obtained while this one is still open and are closed
    before it: of any two connections of an execution, the one obtained
    later is closed first. *)
Theorem connection_closed_last
    (fuel : nat) (T : Transport) (self : _HTTPClient) (next : nat)
    (request : Request) (connection : Connection) (r : Run) :
  get_connection self request = inr connection ->
  perform_request fuel T self next request = Some r ->
  (exists mid,
      run_trace r = (EvOpen next connection :: mid ++ [EvClose next])%list
      /\ closes next mid = 0)
  /\ (forall c connection',
        In (EvOpen c connection') (run_trace r) -> closes c (run_trace r) = 1)
  /\ forall c1 c2 conn1 conn2,
       c1 < c2 ->
       In (EvOpen c1 conn1) (run_trace r) ->
       In (EvOpen c2 conn2) (run_trace r) ->
       exists l1 l2 l3 l4 l5,
         run_trace r
         = (l1 ++ EvOpen c1 conn1 :: l2 ++ EvOpen c2 conn2 :: l3
               ++ EvClose c2 :: l4 ++ EvClose c1 :: l5)%list.
Proof.
  intros G H. apply perform_request_runs in H.
  split; [|split].
  - destruct (runs_bracket T self next request r connection H G)
      as (mid & Htrace & Hclosed & _).
    exists mid. split; assumption.
  - exact (runs_close_once T self next request r H).
  - exact (nested_order next (run_trace r) (runs_nested T self next request r H)).
Qed.

Lemma connection_closed_last_witness :
  perform_request 2 redirect_once default_client 0 plain_request
  = Some redirect_once_run
  /\ exists l1 l2 l3 l4 l5,
       run_trace redirect_once_run
       = (l1 ++ EvOpen 0 plain_connection :: l2
             ++ EvOpen 1 host2_connection :: l3
             ++ EvClose 1 :: l4 ++ EvClose 0 :: l5)%list.
Proof.
  split; [reflexivity|].
  exact (proj2 (proj2 (connection_closed_last 2 redirect_once default_client 0
                         plain_request plain_connection redirect_once_run
                         eq_refl eq_refl))
               0 1 plain_connection host2_connection (le_n 1)
               (or_introl eq_refl)
               (or_intror (or_intror (or_intror (or_intror (or_introl eq_refl)))))).
Defined.

(** C4 as stated fails on a redirect: the connection of the redirected hop
    is still open when the next hop obtains its own, and is closed last. *)
Lemma redirected_connection_closed_after_next_hop :
  option_map (fun r => map event_conn (run_trace r))
    (perform_request 2 redirect_once default_client 0 plain_request)
  = Some [0; 0; 0; 0; 1; 1; 1; 1; 1; 1; 0]
  /\ option_map (fun r => position (is_open 1) (run_trace r))
       (perform_request 2 redirect_once default_client 0 plain_request)
     = Some (Some 4)
  /\ option_map (fun r => position (is_close 0) (run_trace r))
       (perform_request 2 redirect_once default_client 0 plain_request)
     = Some (Some 10)
  /\ option_map (fun r => closed_before_opened 0 1 (run_trace r))
       (perform_request 2 redirect_once default_client 0 plain_request)
     = Some false.
Proof. repeat split; reflexivity. Qed.

(** C9.  In an execution that got its connection, [close()] is called on
    that connection exactly once, whether the execution returns a response,
    raises an [HTTPError] or passes on a failure of the transport; the same
    holds for every connection obtained by the hops that follow a
    redirect. *)
Theorem close_called_exactly_once
    (fuel : nat) (T : Transport) (self : _HTTPClient) (next : nat)
    (request : Request) (connection : Connection) (r : Run) :
  get_connection self request = inr connection ->
  perform_request fuel T self next request = Some r ->
  closes next (run_trace r) = 1
  /\ forall c connection',
       In (EvOpen c connection') (run_trace r) -> closes c (run_trace r) = 1.
Proof.
  intros G H. apply perform_request_runs in H.
  split; [|now apply (runs_close_once T self next request)].
  apply (runs_close_once T self next request r H next connection).
  destruct (runs_bracket T self next request r connection H G) as (mid & -> & _).
  now left.
Qed.

Lemma close_called_exactly_once_witness :
  perform_request 1 broken default_client 0 plain_request
  = Some (mkRun 1
            [EvOpen 0 plain_connection; EvPutRequest 0 "GET" "/a";
             EvEndHeaders 0 ["GET /a HTTP/1.1"; "Accept-Encoding: identity";
                             "User-Agent: azure-sdk"];
             EvGetResponse 0; EvClose 0]
            plain_request (inl (TransportError AtGetResponse)))
  /\ closes 0 [EvOpen 0 plain_connection; EvPutRequest 0 "GET" "/a";
             EvEndHeaders 0 ["GET /a HTTP/1.1"; "Accept-Encoding: identity";
                             "User-Agent: azure-sdk"];
             EvGetResponse 0; EvClose 0] = 1.
Proof.
  split; [reflexivity|].
  apply (close_called_exactly_once 1 broken default_client 0 plain_request
           plain_connection _ eq_refl eq_refl).
Defined.

Example close_once_on_success :
  option_map (fun r => closes 0 (run_trace r))
    (perform_request 1 (always (working ok_response)) default_client 0 plain_request)
  = Some 1.
Proof. reflexivity. Qed.

Example close_once_on_http_error :
  option_map (fun r => closes 0 (run_trace r))
    (perform_request 1 (always (working not_found_response)) default_client 0
                     plain_request)
  = Some 1.
Proof. reflexivity. Qed.

(** An execution that follows no redirect ends within one hop. *)
Lemma perform_request_total_without_redirect
    (fuel : nat) (T : Transport) (self : _HTTPClient) (next : nat)
    (request : Request) :
  (forall connection request',
     snd (attempt T self next connection request) <> inr (Redirect request')) ->
  exists r, perform_request (S fuel) T self next request = Some r.
Proof.
  intros H. cbn [perform_request].
  destruct (get_connection self request) as [e|connection]; [eauto|].
  specialize (H connection).
  destruct (attempt T self next connection request) as [t [e|[response|request']]];
    eauto.
  exfalso. now apply (H request').
Qed.

(** C7.  The body that [perform_request] hands on (in the response or in
    the [HTTPError]) follows the declared length: with no declared length it
    is all that [read()] delivers up to the end of the stream; with a
    positive length [n] it is what [read(n)] delivers, [n] bytes when the
    stream holds that many; with length zero nothing is read and the body is
    [None]. *)
Theorem body_follows_declared_length
    (fuel : nat) (T : Transport) (self : _HTTPClient) (next : nat)
    (request : Request) (connection : Connection) (resp : RawResponse) :
  get_connection self request = inr connection ->
  tr_behaviour T next request = working resp ->
  resp_status resp <> 307%Z ->
  exists r,
    perform_request (S fuel) T self next request = Some r
    /\ outcome_body (run_outcome r)
       = Some (match resp_length resp with
               | None => Some (resp_stream resp)
               | Some 0%Z => None
               | Some n =>
                   if (0 <? n)%Z
                   then Some (take (Z.to_nat n) (resp_stream resp))
                   else None
               end)
    /\ reads next (run_trace r)
       = match resp_length resp with
         | None => [None]
         | Some 0%Z => []
         | Some n => if (0 <? n)%Z then [Some n] else []
         end
    /\ forall n,
         resp_length resp = Some n ->
         Z.to_nat n <= String.length (resp_stream resp) ->
         String.length (take (Z.to_nat n) (resp_stream resp)) = Z.to_nat n.
Proof.
  intros G Hb Hs.
  assert (Hbody : declared_body resp
                  = match resp_length resp with
                    | None => Some (resp_stream resp)
                    | Some 0%Z => None
                    | Some n =>
                        if (0 <? n)%Z
                        then Some (take (Z.to_nat n) (resp_stream resp))
                        else None
                    end).
  { unfold declared_body. destruct (resp_length resp) as [[|p|p]|]; reflexivity. }
  assert (Hreads : forall t,
             t = match resp_length resp with
                 | None => [None]
                 | Some n => if (0 <? n)%Z then [Some n] else []
                 end ->
             t = match resp_length resp with
                 | None => [None]
                 | Some 0%Z => []
                 | Some n => if (0 <? n)%Z then [Some n] else []
                 end).
  { intros t ->. destruct (resp_length resp) as [[|p|p]|]; reflexivity. }
  cbn [perform_request]. rewrite G, (attempt_working_eq _ _ _ _ _ _ Hb).
  unfold hop_outcome.
  replace (resp_status resp =? 307)%Z with false by (symmetry; now apply Z.eqb_neq).
  destruct (resp_status resp >=? 300)%Z; eexists; (split; [reflexivity|]);
    cbn [run_outcome run_trace outcome_body body]; rewrite Hbody;
    (split; [reflexivity|]);
    (split; [apply Hreads, reads_one_hop | intros n _; apply take_length]).
Qed.

Lemma body_follows_declared_length_witness :
  exists r,
    perform_request 1 (always (working long_response)) default_client 0 plain_request
    = Some r
    /\ outcome_body (run_outcome r) = Some (Some "<a>")
    /\ reads 0 (run_trace r) = [Some 3%Z].
Proof.
  destruct (body_follows_declared_length 0 (always (working long_response))
              default_client 0 plain_request plain_connection long_response
              eq_refl eq_refl)
    as (r & Hr & Hb & Hreads & _); [discriminate|].
  exists r. repeat split; assumption.
Defined.

Example zero_length_body_is_none :
  option_map (fun r => outcome_body (run_outcome r))
    (perform_request 1
       (always (working (mkRaw 200 "OK" [] (Some 0%Z) "ignored")))
       default_client 0 plain_request)
  = Some (Some None).
Proof. reflexivity. Qed.

Example undeclared_length_reads_to_the_end :
  option_map (fun r => outcome_body (run_outcome r))
    (perform_request 1 (always (working not_found_response)) default_client 0
                     plain_request)
  = Some (Some (Some "not found")).
Proof. reflexivity. Qed.

(** * Further properties *)

(** ** Percent-encoding and the normaliser *)

Lemma hex_digit_safe (n : nat) : always_safe (hex_digit n) = true.
Proof. do 15 (destruct n as [|n]; [reflexivity|]). reflexivity. Qed.

Lemma always_safe_quoted (c : ascii) : always_safe c = true -> quoted_char c = true.
Proof. intros H. unfold quoted_char, safe_char. now rewrite H. Qed.

(** A character that [quote] can never produce does not occur in its
    output. *)
Lemma url_quote_avoids (c : ascii) (s : string) :
  quoted_char c = false -> contains c (url_quote s SAFE) = false.
Proof.
  intros Hc. induction s as [|x s IH]; [reflexivity|].
  cbn [url_quote]. rewrite contains_append, IH, orb_false_r.
  unfold quote_byte. fold (safe_char x).
  destruct (safe_char x) eqn:Hx.
  - simpl. destruct (Ascii.eqb_spec x c) as [->|]; [|reflexivity].
    unfold quoted_char in Hc. now rewrite Hx in Hc.
  - cbn [contains].
    destruct (Ascii.eqb_spec "%"%char c) as [<-|_]; [discriminate Hc|].
    destruct (Ascii.eqb_spec (hex_digit (nat_of_ascii x / 16)) c) as [<-|_].
    { now rewrite (always_safe_quoted _ (hex_digit_safe _)) in Hc. }
    destruct (Ascii.eqb_spec (hex_digit (nat_of_ascii x mod 16)) c) as [<-|_].
    { now rewrite (always_safe_quoted _ (hex_digit_safe _)) in Hc. }
    reflexivity.
Qed.

(** Text made of safe characters is left as it is. *)
Lemma url_quote_safe (s : string) :
  UrlParse.all_chars safe_char s = true -> url_quote s SAFE = s.
Proof.
  induction s as [|x s IH]; [reflexivity|].
  cbn [UrlParse.all_chars url_quote]. intros H.
  apply andb_true_iff in H as [Hx Hs].
  unfold quote_byte. fold (safe_char x). rewrite Hx, (IH Hs). reflexivity.
Qed.

Lemma all_safe_no_question (s : string) :
  UrlParse.all_chars safe_char s = true -> contains "?" s = false.
Proof.
  induction s as [|x s IH]; [reflexivity|].
  cbn [UrlParse.all_chars contains]. intros H.
  apply andb_true_iff in H as [Hx Hs].
  destruct (Ascii.eqb_spec x "?") as [->|_]; [discriminate Hx | now apply IH].
Qed.

Lemma update_without_valued_pairs (request : Request) :
  contains "?" (req_path request) = false ->
  present (req_query request) = [] ->
  snd (_update_request_uri_query request)
  = (url_quote (req_path request) SAFE, req_query request).
Proof.
  intros Hq Hp.
  rewrite update_request_uri_query_eq.
  unfold path_base, path_query. rewrite (partition_absent "?" _ Hq). cbn [fst snd].
  change (inline_pairs EmptyString) with (@nil pair_t).
  rewrite app_nil_r, Hp. cbn [query_suffix]. now rewrite append_nil_r_s.
Qed.

(** X1.  A path without [?] and a query list in which no pair has a value:
    the path is percent-encoded, nothing is appended to it (no [?] either),
    and the query list is handed back as it was. *)
Theorem normalizer_without_valued_pairs (request : Request) :
  contains "?" (req_path request) = false ->
  present (req_query request) = [] ->
  snd (_update_request_uri_query request)
  = (url_quote (req_path request) SAFE, req_query request).
Proof.
  intros Hq Hp.
  rewrite update_request_uri_query_eq.
  unfold path_base, path_query. rewrite (partition_absent "?" _ Hq). cbn [fst snd].
  change (inline_pairs EmptyString) with (@nil pair_t).
  rewrite app_nil_r, Hp. cbn [query_suffix]. now rewrite append_nil_r_s.
Qed.

Lemma normalizer_without_valued_pairs_witness :
  snd (_update_request_uri_query
         (mkRequest "GET" (Some "h") "/a b" [("comp", None)] [] None None))
  = ("/a%20b", [("comp", None)]).
Proof.
  apply (normalizer_without_valued_pairs
           (mkRequest "GET" (Some "h") "/a b" [("comp", None)] [] None None));
    reflexivity.
Defined.

(** X2.  A request whose path is made of unreserved and safe characters and
    whose query list is empty comes out of the normaliser unchanged. *)
Theorem normalizer_keeps_clean_request (request : Request) :
  UrlParse.all_chars safe_char (req_path request) = true ->
  req_query request = [] ->
  _update_request_uri_query request = (request, (req_path request, [])).
Proof.
  intros Hsafe Hq.
  pose proof (update_without_valued_pairs request
                (all_safe_no_question _ Hsafe)) as H.
  rewrite Hq in H. specialize (H eq_refl).
  rewrite (url_quote_safe _ Hsafe) in H.
  pose proof (update_returns_fields request) as F.
  destruct (update_keeps_fields request) as (Hm & Hh & Hhd & Hb & Ho).
  destruct (_update_request_uri_query request) as [r [p q]].
  cbn [fst snd] in *. rewrite H in F. injection F as Hp Hq'.
  rewrite H. f_equal.
  destruct r, request. cbn in *. congruence.
Qed.

Lemma normalizer_keeps_clean_request_witness :
  _update_request_uri_query plain_request = (plain_request, ("/a", [])).
Proof.
  apply (normalizer_keeps_clean_request plain_request); reflexivity.
Defined.

Lemma update_with_items (request : Request) (base : string) (items : list item) :
  contains "?" base = false ->
  Forall wf_item items ->
  req_path request = base ++ "?" ++ join "&" (map item_text items) ->
  snd (_update_request_uri_query request)
  = (url_quote base SAFE
       ++ query_suffix (present (req_query request) ++ item_pairs items),
     (req_query request ++ map with_value (item_pairs items))%list).
Proof.
  intros Hbase Hwf Hpath.
  rewrite update_request_uri_query_eq, Hpath.
  unfold path_base, path_query.
  change (base ++ "?" ++ join "&" (map item_text items))
    with (base ++ String "?" (join "&" (map item_text items))).
  rewrite (partition_first "?" _ _ Hbase). cbn [fst snd].
  rewrite (inline_pairs_join items Hwf).
  now rewrite present_app, present_with_value.
Qed.

(** X3.  The normaliser is not idempotent.  Run on its own result, it
    finds the pairs it wrote into the path and appends them to the query
    list again, with values now in encoded form, and encodes the base path
    a second time: every valued pair then occurs twice. *)
Theorem normalizer_twice_duplicates (request : Request) :
  let r1 := fst (_update_request_uri_query request) in
  let P := present (req_query r1) in
  Forall plain_name P ->
  snd (_update_request_uri_query r1)
  = (url_quote (url_quote (path_base (req_path request)) SAFE) SAFE
       ++ query_suffix (P ++ map requote P),
     (req_query r1 ++ map with_value (map requote P))%list).
Proof.
  intros r1 P Hplain.
  pose proof (update_returns_fields request) as F.
  rewrite update_request_uri_query_eq in F. fold r1 in F.
  injection F as Hpath Hquery.
  assert (Hbase : contains "?" (url_quote (path_base (req_path request)) SAFE) = false)
    by (now apply url_quote_avoids).
  subst P. rewrite <- Hquery in *.
  set (q1 := (req_query request ++ inline_pairs (path_query (req_path request)))%list) in *.
  destruct (present q1) as [|p ps] eqn:HP.
  - cbn [query_suffix] in Hpath. rewrite append_nil_r_s in Hpath.
    rewrite update_without_valued_pairs; rewrite <- ?Hpath, <- ?Hquery; try assumption.
    cbn [map app query_suffix]. now rewrite append_nil_r_s, app_nil_r.
  - rewrite (update_with_items r1 _
               (map (fun p => Pair (fst p) (url_quote (snd p) SAFE)) (p :: ps))
               Hbase).
    + rewrite <- Hquery, HP. f_equal.
      * f_equal. f_equal. f_equal. clear.
        induction (p :: ps) as [|x l IH]; [reflexivity|]. simpl. now rewrite IH.
      * f_equal. f_equal. clear.
        induction (p :: ps) as [|x l IH]; [reflexivity|]. simpl. now rewrite IH.
    + clear -Hplain. induction Hplain as [|x l [Ha He] _ IH]; constructor; [|exact IH].
      simpl. repeat split; try assumption. now apply url_quote_avoids.
    + rewrite <- Hpath. cbn [query_suffix]. do 3 f_equal.
      rewrite map_map. reflexivity.
Qed.

Lemma normalizer_twice_duplicates_witness :
  snd (_update_request_uri_query (fst (_update_request_uri_query example_request)))
  = ("/a?y=2&x=1&y=2&x=1",
     [("y", Some "2"); ("x", Some "1"); ("y", Some "2"); ("x", Some "1")]).
Proof.
  apply (normalizer_twice_duplicates example_request).
  repeat constructor.
Defined.

(** ** Transport selection and the tunnel *)

Lemma lower_idempotent (s : string) : lower (lower s) = lower s.
Proof.
  induction s as [|x s IH]; simpl; [reflexivity|].
  rewrite IH. f_equal.
  unfold lower_char. destruct (is_upper x) eqn:U; [|now rewrite U].
  unfold is_upper in U. apply andb_true_iff in U as [U1 U2].
  apply Nat.leb_le in U1, U2.
  pose proof (nat_ascii_bounded x) as B.
  unfold is_upper. rewrite nat_ascii_embedding by lia.
  replace (nat_of_ascii x + 32 <=? 90)%nat with false
    by (symmetry; apply Nat.leb_gt; lia).
  now rewrite andb_false_r.
Qed.

Lemma effective_protocol_lower (self : _HTTPClient) (request : Request) :
  lower (effective_protocol self request) = effective_protocol self request.
Proof. unfold effective_protocol. apply lower_idempotent. Qed.

Lemma should_use_httplib_spec (is_windows : bool) (isfile : string -> bool)
    (cert : option string) :
  should_use_httplib is_windows isfile cert
  = negb (is_windows && truthy cert && negb (isfile (text_of cert))).
Proof.
  unfold should_use_httplib, truthy, text_of.
  destruct cert as [f|]; [|now rewrite andb_false_r].
  destruct is_windows, (nonempty f), (isfile f); reflexivity.
Qed.

(** X4.  Which transport a freshly built client uses: the session-backed
    one whenever a session was injected; else the platform one on Windows
    when the certificate reference is set and is not a file on disk; else
    the socket one.  Without [set_proxy] no tunnel is set up. *)
Theorem transport_selection
    (is_windows : bool) (isfile : string -> bool) (cert : option string)
    (proto : string) (session : option Session) (tmo : Z) (agent : string)
    (request : Request) (connection : Connection) :
  get_connection (init_client is_windows isfile cert proto session tmo agent) request
  = inr connection ->
  kind_of connection
  = match session with
    | Some _ => SessionBacked
    | None =>
        if is_windows && truthy cert && negb (isfile (text_of cert))
        then PlatformNative else SocketBased
    end
  /\ conn_tunnel connection = None.
Proof.
  unfold get_connection, select_connection, init_client, configured_proxy.
  cbn [request_session use_httplib proxy_host option_map timeout cert_file].
  destruct session as [s|].
  - intros H. injection H as <-. split; reflexivity.
  - rewrite should_use_httplib_spec, negb_involutive.
    destruct (is_windows && truthy cert && negb (isfile (text_of cert))).
    + intros H. injection H as <-. split; reflexivity.
    + destruct (req_host request) as [h|]; [|discriminate].
      destruct (if contains ":" h
                then let '(h0, _, p) := rpartition ":" h in (h0, PortStr p)
                else (h, PortInt (if String.eqb _ "http" then HTTP_PORT else HTTPS_PORT)))
        as [th tp].
      destruct (py_int tp) as [e|n]; [discriminate|].
      intros H. injection H as <-. unfold kind_of. cbn [conn_class_of conn_tunnel].
      split; [|reflexivity].
      destruct (String.eqb _ "http"); reflexivity.
Qed.

Lemma transport_selection_witness :
  kind_of (mkConnection
             (WinHTTPConnection (Some "management.core.windows.net")
                                (Some "CURRENT_USER\my\CertificateName") "https" 65)
             None)
  = PlatformNative
  /\ conn_tunnel
       (mkConnection
          (WinHTTPConnection (Some "management.core.windows.net")
                             (Some "CURRENT_USER\my\CertificateName") "https" 65)
          None)
     = None.
Proof.
  apply (transport_selection true (fun _ => false)
           (Some "CURRENT_USER\my\CertificateName") "https" None 65
           "azure-sdk" plain_request).
  reflexivity.
Defined.

Lemma rsplit1_absent (c : ascii) (s : string) :
  contains c s = false -> rsplit1 c s = None.
Proof.
  induction s as [|x s IH]; simpl; [reflexivity|].
  destruct (Ascii.eqb x c); [discriminate|].
  intros H. now rewrite (IH H).
Qed.

Lemma rsplit1_last (c : ascii) (a b : string) :
  contains c b = false -> rsplit1 c (a ++ String c b) = Some (a, b).
Proof.
  intros Hb. induction a as [|x a IH]; simpl.
  - now rewrite (rsplit1_absent c b Hb), Ascii.eqb_refl.
  - now rewrite IH.
Qed.

Lemma rpartition_last (c : ascii) (a b : string) :
  contains c b = false ->
  rpartition c (a ++ String c b) = (a, String c EmptyString, b).
Proof. intros Hb. unfold rpartition. now rewrite (rsplit1_last c a b Hb). Qed.



Lemma digits_numeric (s : string) :
  forall pending acc n,
    digits_val pending acc s = Some n ->
    UrlParse.all_chars numeric_char s = true.
Proof.
  induction s as [|c s IH]; intros pending acc n; [reflexivity|].
  cbn [digits_val UrlParse.all_chars].
  destruct (Ascii.eqb_spec c "_") as [->|_].
  - destruct pending; [discriminate|].
    intros H. now rewrite (IH _ _ _ H).
  - unfold digit_val. destruct (is_digit c) eqn:D; [|discriminate].
    intros H. rewrite (IH _ _ _ H). unfold numeric_char. now rewrite D.
Qed.

Lemma unsigned_numeric (s : string) (n : Z) :
  unsigned_val s = Some n -> UrlParse.all_chars numeric_char s = true.
Proof.
  destruct s as [|c s]; [discriminate|].
  cbn [unsigned_val UrlParse.all_chars]. unfold digit_val.
  destruct (is_digit c) eqn:D; [|discriminate].
  intros H. rewrite (digits_numeric _ _ _ _ H). unfold numeric_char. now rewrite D.
Qed.

Lemma space_numeric (c : ascii) : is_space c = true -> numeric_char c = true.
Proof. intros H. unfold numeric_char. rewrite H. now rewrite orb_true_r. Qed.

Lemma lstrip_numeric (s : string) :
  UrlParse.all_chars numeric_char (lstrip s) = true ->
  UrlParse.all_chars numeric_char s = true.
Proof.
  induction s as [|c s IH]; [reflexivity|]. cbn [lstrip].
  destruct (is_space c) eqn:S; [|exact (fun H => H)].
  intros H. cbn [UrlParse.all_chars]. now rewrite (space_numeric c S), (IH H).
Qed.

Lemma rstrip_numeric (s : string) :
  UrlParse.all_chars numeric_char (rstrip s) = true ->
  UrlParse.all_chars numeric_char s = true.
Proof.
  induction s as [|c s IH]; [reflexivity|]. cbn [rstrip].
  destruct (rstrip s) as [|c' r'].
  - specialize (IH eq_refl). cbn [UrlParse.all_chars]. rewrite IH.
    destruct (is_space c) eqn:S.
    + intros _. now rewrite (space_numeric c S).
    + cbn [UrlParse.all_chars]. now rewrite andb_true_r.
  - cbn [UrlParse.all_chars] in *. intros H.
    apply andb_true_iff in H as [Hc Hr]. now rewrite Hc, (IH Hr).
Qed.

(** What [int] accepts is made of digits, signs, underscores and blanks. *)
Lemma int_of_str_numeric (s : string) (n : Z) :
  int_of_str s = Some n -> UrlParse.all_chars numeric_char s = true.
Proof.
  unfold int_of_str. intros H.
  apply lstrip_numeric, rstrip_numeric.
  destruct (rstrip (lstrip s)) as [|c r]; [discriminate|].
  destruct (Ascii.eqb_spec c "-") as [->|_].
  - destruct (unsigned_val r) as [m|] eqn:U; [|discriminate].
    cbn [UrlParse.all_chars]. now rewrite (unsigned_numeric r m U).
  - destruct (Ascii.eqb_spec c "+") as [->|_].
    + cbn [UrlParse.all_chars]. now rewrite (unsigned_numeric r n H).
    + exact (unsigned_numeric _ n H).
Qed.

Lemma foreign_not_numeric (s : string) :
  any_char foreign_char s = true -> UrlParse.all_chars numeric_char s = false.
Proof.
  induction s as [|c s IH]; [discriminate|].
  cbn [any_char UrlParse.all_chars]. intros H.
  apply orb_true_iff in H as [H|H].
  - unfold foreign_char in H. apply andb_true_iff in H as [H _].
    apply andb_true_iff in H as [_ H]. apply negb_true_iff in H. now rewrite H.
  - rewrite (IH H). apply andb_false_r.
Qed.

(** Malformed text is rejected. *)
Lemma malformed_rejected (s : string) :
  surely_malformed s = true -> int_of_str s = None.
Proof.
  destruct s as [|c s]; [reflexivity|]. cbn [surely_malformed]. intros H.
  destruct (int_of_str (String c s)) as [n|] eqn:E; [|reflexivity].
  apply int_of_str_numeric in E. rewrite (foreign_not_numeric _ H) in E.
  discriminate.
Qed.

(** X6.  On the socket transport without a proxy, a host of the form
    [name:port] is cut at its last [:]: when the text after it is a decimal
    number the connection goes to [name] on that port, and when that text is
    empty or holds a character no decimal number has (as in an IPv6
    literal) the call raises [ValueError] before any connection exists. *)
Theorem explicit_port_is_parsed
    (self : _HTTPClient) (request : Request) (name port : string) :
  request_session self = None ->
  use_httplib self = true ->
  configured_proxy self = None ->
  req_host request = Some (name ++ ":" ++ port) ->
  contains ":" port = false ->
  (forall n,
      int_of_str port = Some n ->
      get_connection self request
      = inr (mkConnection
               (socket_class self (effective_protocol self request) name n) None))
  /\ (surely_malformed port = true ->
      get_connection self request = inl ValueError).
Proof.
  intros Hs Hl Hp Hh Hc.
  assert (E : get_connection self request
              = match int_of_str port with
                | Some n =>
                    inr (mkConnection
                           (socket_class self (effective_protocol self request)
                                         name n) None)
                | None => inl ValueError
                end).
  { unfold get_connection, select_connection.
    rewrite Hs, Hl, Hp, Hh. cbn [negb].
    change (name ++ ":" ++ port) with (name ++ String ":" port).
    rewrite (contains_append ":" name (String ":" port)), contains_here, orb_true_r.
    rewrite (rpartition_last ":" name port Hc).
    rewrite effective_protocol_lower. unfold socket_class. cbn [py_int].
    destruct (int_of_str port); reflexivity. }
  split.
  - intros n Hn. now rewrite E, Hn.
  - intros Hm. now rewrite E, (malformed_rejected port Hm).
Qed.

Lemma explicit_port_is_parsed_witness :
  get_connection default_client
    (mkRequest "GET" (Some "localhost: 80") "/a" [] [] None None)
  = inr (mkConnection (HTTPSConnection "localhost" 80 None 65) None)
  /\ get_connection default_client
       (mkRequest "GET" (Some "[::1]") "/a" [] [] None None)
     = inl ValueError.
Proof.
  split.
  - apply (proj1 (explicit_port_is_parsed default_client
                    (mkRequest "GET" (Some "localhost: 80") "/a" [] [] None None)
                    "localhost" " 80" eq_refl eq_refl eq_refl eq_refl eq_refl)).
    reflexivity.
  - apply (proj2 (explicit_port_is_parsed default_client
                    (mkRequest "GET" (Some "[::1]") "/a" [] [] None None)
                    "[:" "1]" eq_refl eq_refl eq_refl eq_refl eq_refl)).
    reflexivity.
Defined.

(** X7.  With a proxy host set, a proxy port that is [None] ([TypeError]),
    or a text that is empty or holds a character no decimal number has
    ([ValueError]), makes [get_connection] raise for every request that names
    a host.  On the socket transport it is that error, raised where the
    connection is built.  On the other two transports it is that error too,
    unless both proxy credentials are set: then the header of line 173
    fails first. *)
Theorem unusable_proxy_port_raises
    (self : _HTTPClient) (request : Request) (proxy host : string) (e : exn) :
  configured_proxy self = Some proxy ->
  port_rejection (proxy_port self) = Some e ->
  req_host request = Some host ->
  get_connection self request
  = inl (if is_none (request_session self) && use_httplib self then e
         else if truthy (proxy_user self) && truthy (proxy_password self)
              then AttributeError else e).
Proof.
  intros Hp He Hh.
  assert (Hint : py_int (proxy_port self) = inl e).
  { unfold port_rejection in He. destruct (proxy_port self) as [n|s|];
      [discriminate| |now injection He as <-].
    destruct (surely_malformed s) eqn:M; [|discriminate].
    injection He as <-. cbn [py_int]. now rewrite (malformed_rejected s M). }
  unfold get_connection, select_connection, tunnel_headers.
  rewrite Hp, Hh. cbn [option_map].
  destruct (request_session self); cbn [is_none andb].
  - destruct (truthy (proxy_user self) && truthy (proxy_password self));
      [reflexivity | now rewrite Hint].
  - destruct (use_httplib self); cbn [negb].
    + destruct (if contains ":" host
                then let '(h0, _, p) := rpartition ":" host in (h0, PortStr p)
                else (host, PortInt (if String.eqb _ "http" then HTTP_PORT
                                     else HTTPS_PORT)))
        as [th tp].
      now rewrite Hint.
    + destruct (truthy (proxy_user self) && truthy (proxy_password self));
        [reflexivity | now rewrite Hint].
Qed.

Lemma unusable_proxy_port_raises_witness :
  get_connection (set_proxy default_client (Some "192.168.0.100") PortNone None None)
                 plain_request
  = inl TypeError.
Proof.
  apply (unusable_proxy_port_raises
           (set_proxy default_client (Some "192.168.0.100") PortNone None None)
           plain_request "192.168.0.100" "management.core.windows.net");
    reflexivity.
Defined.

(** ** Header and body writers *)

(** X8.  Outside the tunnel correction (platform transport, no proxy host,
    or an injected session) the header buffer is not rewritten: what is sent
    is the buffer as [putrequest] left it, then the caller's headers in their
    order without those whose value is empty or [None], then the
    [User-Agent] header, which is written even when the agent text is
    empty. *)
Theorem headers_without_tunnel_correction
    (self : _HTTPClient) (connection : Connection) (buffer : list string)
    (request_headers : list pair_t) :
  use_httplib self && truthy (proxy_host self) && is_none (request_session self)
  = false ->
  staged_headers self connection buffer request_headers
  = (buffer ++ request_header_lines request_headers
     ++ [String.append "User-Agent: " (user_agent self)])%list.
Proof.
  intros H. unfold staged_headers.
  assert (E : (if use_httplib self
               then if truthy (proxy_host self) && is_none (request_session self)
                    then putheader (strip_host_lines buffer) "Host"
                           (tunnel_target connection)
                    else buffer
               else buffer) = buffer).
  { destruct (use_httplib self); [|reflexivity].
    cbn [andb] in H. now rewrite H. }
  rewrite E, fold_put_request_header. unfold putheader.
  now rewrite <- app_assoc.
Qed.

Lemma headers_without_tunnel_correction_witness :
  staged_headers default_client plain_connection
    ["GET /a HTTP/1.1"; "Host: management.core.windows.net"]
    [("x-ms-version", Some "2014-10-01"); ("If-Match", Some EmptyString);
     ("Content-Type", None); ("Accept", Some "application/xml")]
  = ["GET /a HTTP/1.1"; "Host: management.core.windows.net";
     "x-ms-version: 2014-10-01"; "Accept: application/xml";
     "User-Agent: azure-sdk"].
Proof.
  apply (headers_without_tunnel_correction default_client plain_connection).
  reflexivity.
Defined.

(** Nothing is removed from position [idx] on when no Host line is left
    there. *)
Lemma strip_host_loop_clean_tail (fuel : nat) :
  forall idx buffer,
    no_host_line (skipn idx buffer) ->
    strip_host_loop fuel idx buffer = buffer.
Proof.
  induction fuel as [|fuel IH]; intros idx buffer H; simpl; [reflexivity|].
  destruct (nth_error buffer idx) as [i|] eqn:E; [|reflexivity].
  assert (Hi : is_host_line i = false).
  { unfold no_host_line in H. rewrite Forall_forall in H. apply H.
    apply nth_error_split in E as (l1 & l2 & -> & <-).
    rewrite skipn_app, Nat.sub_diag, skipn_all. now left. }
  rewrite Hi. apply IH.
  unfold no_host_line in *.
  apply nth_error_split in E as (l1 & l2 & -> & <-).
  rewrite skipn_app, Nat.sub_diag, skipn_all in H. simpl in H.
  replace (S (length l1)) with (length (l1 ++ [i])%list)
    by (rewrite length_app; simpl; lia).
  replace (l1 ++ i :: l2)%list with ((l1 ++ [i]) ++ l2)%list
    by (now rewrite <- app_assoc).
  rewrite skipn_app, Nat.sub_diag, skipn_all. simpl.
  now inversion H.
Qed.

(** X9.  The loop that removes Host lines steps over the element that
    follows a removed one: of two Host lines in a row only the first is
    removed. *)
Theorem adjacent_host_lines_one_survives
    (pre post : list string) (first second : string) :
  no_host_line pre ->
  no_host_line post ->
  is_host_line first = true ->
  is_host_line second = true ->
  strip_host_lines (pre ++ first :: second :: post) = (pre ++ second :: post)%list.
Proof.
  intros Hpre Hpost H1 H2.
  assert (Hnotin : ~ In first pre).
  { intros Hin. unfold no_host_line in Hpre. rewrite Forall_forall in Hpre.
    rewrite (Hpre _ Hin) in H1. discriminate. }
  unfold strip_host_lines.
  assert (G : forall k idx fuel,
             idx + k = length pre -> k < fuel ->
             strip_host_loop fuel idx (pre ++ first :: second :: post)
             = (pre ++ second :: post)%list).
  { induction k as [|k IH]; intros idx fuel Hidx Hfuel;
      (destruct fuel as [|fuel]; [lia|]); simpl.
    - assert (idx = length pre) by lia. subst idx.
      rewrite nth_error_app2, Nat.sub_diag by lia. simpl.
      rewrite H1, (list_remove_middle _ _ _ Hnotin).
      apply strip_host_loop_clean_tail.
      replace (S (length pre)) with (length (pre ++ [second])%list)
        by (rewrite length_app; simpl; lia).
      replace (pre ++ second :: post)%list with ((pre ++ [second]) ++ post)%list
        by (now rewrite <- app_assoc).
      rewrite skipn_app, Nat.sub_diag, skipn_all. exact Hpost.
    - assert (Hlt : idx < length pre) by lia.
      rewrite nth_error_app1 by exact Hlt.
      destruct (nth_error pre idx) as [i|] eqn:E.
      + apply nth_error_In in E.
        unfold no_host_line in Hpre. rewrite Forall_forall in Hpre.
        rewrite (Hpre i E). apply IH; lia.
      + apply nth_error_None in E. lia. }
  apply (G (length pre) 0); [lia|].
  rewrite length_app. simpl. lia.
Qed.

Lemma adjacent_host_lines_one_survives_witness :
  strip_host_lines ["GET /a HTTP/1.1"; "Host: proxy"; "Host: target";
                    "Accept-Encoding: identity"]
  = ["GET /a HTTP/1.1"; "Host: target"; "Accept-Encoding: identity"].
Proof.
  apply (adjacent_host_lines_one_survives
           ["GET /a HTTP/1.1"] ["Accept-Encoding: identity"]
           "Host: proxy" "Host: target");
    try reflexivity; repeat constructor.
Defined.

(** ** The request loop: failures and edge cases *)

(** X10.  When the transport fails at the request line, at the end of the
    headers or while the response is awaited, [perform_request] passes the
    failure on: no later call is made on the connection, the connection is
    closed, the request is untouched and nothing is retried. *)
Theorem transport_failure_propagates
    (fuel : nat) (T : Transport) (self : _HTTPClient) (next : nat)
    (request : Request) (connection : Connection) (s : stage) :
  get_connection self request = inr connection ->
  hb_fail (tr_behaviour T next request) = Some s ->
  unconditional_stage s = true ->
  perform_request (S fuel) T self next request
  = Some (mkRun (S next)
            (EvOpen next connection
             :: calls_until T self next connection request s ++ [EvClose next])
            request (inl (TransportError s))).
Proof.
  intros G Hf Hs. cbn [perform_request]. rewrite G.
  assert (A : attempt T self next connection request
              = (calls_until T self next connection request s,
                 inl (TransportError s))).
  { unfold attempt, send_request_headers, send_request_body, transport_call,
      fails_at, calls_until.
    rewrite Hf.
    destruct s; try discriminate Hs; cbn [stage_eqb bind fst snd app];
      destruct (negb (use_httplib self)
                && (truthy (proxy_host self) && truthy (proxy_user self)));
      cbn [stage_eqb bind ret fst snd app]; try reflexivity;
      destruct (truthy (req_body request)); cbn [stage_eqb bind ret fst snd app];
      try reflexivity;
      destruct (negb (is_httplib_connection connection));
      cbn [stage_eqb bind ret fst snd app]; reflexivity. }
  now rewrite A.
Qed.

Lemma transport_failure_propagates_witness :
  perform_request 1 broken default_client 0 plain_request
  = Some (mkRun 1
            [EvOpen 0 plain_connection; EvPutRequest 0 "GET" "/a";
             EvEndHeaders 0 ["GET /a HTTP/1.1"; "Accept-Encoding: identity";
                             "User-Agent: azure-sdk"];
             EvGetResponse 0; EvClose 0]
            plain_request (inl (TransportError AtGetResponse))).
Proof.
  apply (transport_failure_propagates 0 broken default_client 0 plain_request
           plain_connection AtGetResponse);
    reflexivity.
Defined.

(** X11.  A 307 response without a [location] header makes
    [perform_request] raise [KeyError]: the connection is closed, no second
    connection is obtained and the request is untouched. *)
Theorem redirect_without_location_raises
    (fuel : nat) (T : Transport) (self : _HTTPClient) (next : nat)
    (request : Request) (connection : Connection) (resp : RawResponse) :
  get_connection self request = inr connection ->
  tr_behaviour T next request = working resp ->
  resp_status resp = 307%Z ->
  dict_get "location" (lower_names (resp_headers resp)) = None ->
  perform_request (S fuel) T self next request
  = Some (mkRun (S next)
            (EvOpen next connection
             :: hop_calls T self next connection request resp ++ [EvClose next])
            request (inl (KeyError "location"))).
Proof.
  intros G Hb Hs Hloc. cbn [perform_request].
  rewrite G, (attempt_working_eq _ _ _ _ _ _ Hb).
  unfold hop_outcome, redirect_request. rewrite Hs, Hloc. reflexivity.
Qed.

Lemma redirect_without_location_raises_witness :
  option_map run_outcome
    (perform_request 1
       (always (working (mkRaw 307 "Temporary Redirect"
                               [("Content-Length", "0")] (Some 0%Z) EmptyString)))
       default_client 0 plain_request)
  = Some (inl (KeyError "location")).
Proof.
  rewrite (redirect_without_location_raises 0
             (always (working (mkRaw 307 "Temporary Redirect"
                                     [("Content-Length", "0")] (Some 0%Z)
                                     EmptyString)))
             default_client 0 plain_request plain_connection
             (mkRaw 307 "Temporary Redirect" [("Content-Length", "0")]
                    (Some 0%Z) EmptyString)
             eq_refl eq_refl eq_refl eq_refl).
  reflexivity.
Defined.

(** X12.  A 307 whose [location] has no host (a relative reference) sets
    the host of the request to [None]; on the socket transport the next call
    then raises [TypeError] before it gets a connection.  The first
    connection is closed, and the caller's request is left with the new path
    and no host. *)
Theorem relative_redirect_raises
    (fuel : nat) (T : Transport) (self : _HTTPClient) (next : nat)
    (request : Request) (connection : Connection) (resp : RawResponse)
    (location : string) (new_url : UrlParse.ParseResult) :
  request_session self = None ->
  use_httplib self = true ->
  get_connection self request = inr connection ->
  tr_behaviour T next request = working resp ->
  resp_status resp = 307%Z ->
  dict_get "location" (lower_names (resp_headers resp)) = Some location ->
  UrlParse.urlparse location = inr new_url ->
  UrlParse.hostname new_url = None ->
  perform_request (S (S fuel)) T self next request
  = Some (mkRun (S next)
            (EvOpen next connection
             :: hop_calls T self next connection request resp ++ [EvClose next])
            (redirected request None (UrlParse.path new_url))
            (inl TypeError))
  /\ req_host (redirected request None (UrlParse.path new_url)) = None.
Proof.
  intros Hses Hlib G Hb Hs Hloc Hurl Hhost.
  assert (Hnone : req_host (redirected request None (UrlParse.path new_url)) = None).
  { unfold redirected.
    destruct (update_keeps_fields
                (set_path (UrlParse.path new_url) (set_host None request)))
      as (_ & Hh & _). now rewrite Hh. }
  split; [|exact Hnone].
  remember (S fuel) as f. cbn [perform_request].
  rewrite G, (attempt_working_eq _ _ _ _ _ _ Hb).
  unfold hop_outcome. rewrite Hs. cbn [Z.eqb Pos.eqb].
  rewrite (redirect_request_parsed _ _ _ _ Hloc Hurl), Hhost. cbn [snd].
  subst f. cbn [perform_request].
  unfold get_connection at 1, select_connection.
  rewrite Hses, Hlib, Hnone. cbn [negb run_next run_trace run_request run_outcome].
  reflexivity.
Qed.

Lemma relative_redirect_raises_witness :
  option_map (fun r => (run_outcome r, req_host (run_request r), run_next r))
    (perform_request 2
       (always (working (mkRaw 307 "Temporary Redirect"
                               [("Location", "/elsewhere")] (Some 0%Z) EmptyString)))
       default_client 0 plain_request)
  = Some (inl TypeError, None, 1).
Proof.
  rewrite (proj1
    (relative_redirect_raises 0
       (always (working (mkRaw 307 "Temporary Redirect"
                               [("Location", "/elsewhere")] (Some 0%Z)
                               EmptyString)))
       default_client 0 plain_request plain_connection
       (mkRaw 307 "Temporary Redirect" [("Location", "/elsewhere")]
              (Some 0%Z) EmptyString)
       "/elsewhere"
       (UrlParse.mkParse EmptyString EmptyString "/elsewhere" EmptyString
                         EmptyString EmptyString)
       eq_refl eq_refl eq_refl eq_refl eq_refl eq_refl eq_refl eq_refl)).
  reflexivity.
Defined.

(** ** Results and statuses *)

Section Raising.

Variable Q : exn -> Prop.

Lemma bind_raises {A B : Type} (m : M A) (k : A -> M B) :
  raises_only Q m -> (forall a, raises_only Q (k a)) ->
  raises_only Q (bind m k).
Proof.
  intros Hm Hk e. destruct m as [t [e'|a]]; simpl.
  - intros H. injection H as <-. now apply Hm.
  - specialize (Hk a e). destruct (k a) as [t' r]. exact Hk.
Qed.

Lemma ret_raises {A : Type} (a : A) : raises_only Q (ret a).
Proof. intros e H. discriminate H. Qed.

Lemma call_raises (b : hop_behaviour) (s : stage) (ev : event) :
  Q (TransportError s) -> raises_only Q (transport_call b s ev).
Proof.
  intros H e. unfold transport_call. cbn [snd].
  destruct (fails_at b s); intros E; [now injection E as <- | discriminate].
Qed.

End Raising.

Lemma redirect_request_raises (hs : list (string * string)) (request : Request) :
  raises_only error_status_ok (redirect_request hs request).
Proof.
  intros e. unfold redirect_request.
  destruct (dict_get "location" hs) as [loc|].
  - unfold UrlParse.urlparse.
    repeat match goal with
           | |- context [let '(_, _) := ?x in _] => destruct x
           | |- context [if ?x then _ else _] => destruct x
           end;
      unfold bind, lift;
      try (intros H; cbn in H; injection H as <-; exact I);
      destruct (_update_request_uri_query _) as [r [p q]]; discriminate.
  - intros H. cbn in H. injection H as <-. exact I.
Qed.

(** A hop raises an [HTTPError] only for a status of 300 or more other than
    307. *)
Lemma attempt_raises (T : Transport) (self : _HTTPClient) (c : nat)
    (connection : Connection) (request : Request) :
  raises_only error_status_ok (attempt T self c connection request).
Proof.
  unfold attempt.
  repeat (apply bind_raises; [|intros ?]);
    unfold send_request_headers, send_request_body, read_body;
    repeat match goal with
           | |- raises_only _ (transport_call _ _ _) => apply call_raises; exact I
           | |- raises_only _ (ret _) => apply ret_raises
           | |- raises_only _ (bind _ _) => apply bind_raises; [|intros ?]
           | |- raises_only _ (redirect_request _ _) => apply redirect_request_raises
           | |- raises_only _ (if (_ =? 307)%Z then _ else _) => idtac
           | |- raises_only _ (if ?x then _ else _) => destruct x
           | |- raises_only _ (match ?x with Some _ => _ | None => _ end) => destruct x
           end.
  destruct (resp_status _ =? 307)%Z eqn:E307.
  - apply bind_raises; [apply redirect_request_raises | intros; apply ret_raises].
  - destruct (resp_status _ >=? 300)%Z eqn:E300; [|apply ret_raises].
    intros e H. cbn in H. injection H as <-. cbn.
    apply Z.eqb_neq in E307. rewrite Z.geb_leb in E300. apply Z.leb_le in E300.
    split; assumption.
Qed.

Lemma py_int_raises (p : port_val) (e : exn) :
  py_int p = inl e -> error_status_ok e.
Proof.
  destruct p as [n|s|]; cbn [py_int]; [discriminate| |].
  - destruct (int_of_str s); [discriminate|]. intros H. now injection H as <-.
  - intros H. now injection H as <-.
Qed.

Lemma get_connection_raises (self : _HTTPClient) (request : Request) (e : exn) :
  get_connection self request = inl e -> error_status_ok e.
Proof.
  unfold get_connection.
  destruct (select_connection self request) as [e'|[k [[ph pp]|]]] eqn:S.
  - intros H. injection H as <-. revert S. unfold select_connection.
    destruct (request_session self); [discriminate|].
    destruct (negb (use_httplib self)); [discriminate|].
    destruct (req_host request) as [h|];
      [|intros H; now injection H as <-].
    destruct (if contains ":" h
              then let '(h0, _, p) := rpartition ":" h in (h0, PortStr p)
              else (h, PortInt (if String.eqb _ "http" then HTTP_PORT
                                else HTTPS_PORT)))
      as [th tp].
    destruct (configured_proxy self).
    + destruct (py_int (proxy_port self)) as [e0|n] eqn:P; [|discriminate].
      intros H. injection H as <-. exact (py_int_raises _ _ P).
    + destruct (py_int tp) as [e0|n] eqn:P; [|discriminate].
      intros H. injection H as <-. exact (py_int_raises _ _ P).
  - unfold tunnel_headers.
    destruct (truthy (proxy_user self) && truthy (proxy_password self));
      [intros H; now injection H as <-|].
    destruct (py_int pp) as [e0|n] eqn:P; [|discriminate].
    intros H. injection H as <-. exact (py_int_raises _ _ P).
  - discriminate.
Qed.

(** X13.  Whatever [perform_request] ends with, after any number of
    redirects: a response that is returned has a status below 300, and an
    [HTTPError] that is raised has a status of 300 or more other than 307. *)
Theorem outcome_agrees_with_status
    (fuel : nat) (T : Transport) (self : _HTTPClient) (next : nat)
    (request : Request) (r : Run) :
  perform_request fuel T self next request = Some r ->
  match run_outcome r with
  | inr response => (status response < 300)%Z
  | inl e => error_status_ok e
  end.
Proof.
  intros H. apply perform_request_runs in H.
  induction H as [next request e G
                 |next request connection t e G A
                 |next request connection t response G A
                 |next request connection t request' r G A R IH];
    cbn [run_outcome].
  - exact (get_connection_raises _ _ _ G).
  - apply (attempt_raises T self next connection request). now rewrite A.
  - apply (attempt_return _ _ _ _ _ _ _ A).
  - exact IH.
Qed.

Lemma outcome_agrees_with_status_witness :
  error_status_ok (HTTPError 404 "Not Found" [("content-length", "9")]
                             (Some "not found")).
Proof.
  exact (outcome_agrees_with_status 1 (always (working not_found_response))
           default_client 0 plain_request _ eq_refl).
Defined.

(** ** Connections and redirects *)

Lemma opens_count_app (t1 t2 : list event) :
  opens_count (t1 ++ t2) = opens_count t1 + opens_count t2.
Proof. unfold opens_count. now rewrite filter_app, length_app. Qed.

Lemma closes_count_app (t1 t2 : list event) :
  closes_count (t1 ++ t2) = closes_count t1 + closes_count t2.
Proof. unfold closes_count. now rewrite filter_app, length_app. Qed.

Lemma hop_events_count (c : nat) (t : list event) :
  Forall (hop_event c) t -> opens_count t = 0 /\ closes_count t = 0.
Proof.
  unfold opens_count, closes_count.
  induction 1 as [|e t [_ He] _ [IHo IHc]]; [split; reflexivity|].
  destruct e; simpl in *; try discriminate; split; assumption.
Qed.

(** X14.  No connection is leaked: an execution closes as many connections
    as it obtains, one per hop, and their number is the number of
    connection numbers it used up. *)
Theorem connections_are_balanced
    (fuel : nat) (T : Transport) (self : _HTTPClient) (next : nat)
    (request : Request) (r : Run) :
  perform_request fuel T self next request = Some r ->
  opens_count (run_trace r) = run_next r - next
  /\ closes_count (run_trace r) = run_next r - next.
Proof.
  intros H. apply perform_request_runs in H.
  induction H as [next request e G
                 |next request connection t e G A
                 |next request connection t response G A
                 |next request connection t request' r G A R [IHo IHc]];
    cbn [run_next run_trace];
    try (split; [unfold opens_count | unfold closes_count]; cbn [filter length Nat.add]; lia);
    pose proof (attempt_trace T self next connection request) as Ht;
    rewrite A in Ht; cbn [fst] in Ht;
    destruct (hop_events_count next t Ht) as [Ho Hc].
  - change (EvOpen next connection :: t ++ [EvClose next])%list
      with ([EvOpen next connection] ++ t ++ [EvClose next])%list.
    rewrite !opens_count_app, !closes_count_app, Ho, Hc.
    split; [unfold opens_count | unfold closes_count]; cbn [filter length Nat.add]; lia.
  - change (EvOpen next connection :: t ++ [EvClose next])%list
      with ([EvOpen next connection] ++ t ++ [EvClose next])%list.
    rewrite !opens_count_app, !closes_count_app, Ho, Hc.
    split; [unfold opens_count | unfold closes_count]; cbn [filter length Nat.add]; lia.
  - destruct (runs_numbering T self _ _ _ R) as [Hle _].
    change (EvOpen next connection :: t ++ run_trace r ++ [EvClose next])%list
      with ([EvOpen next connection] ++ t ++ run_trace r ++ [EvClose next])%list.
    rewrite !opens_count_app, !closes_count_app, Ho, Hc, IHo, IHc.
    split; [unfold opens_count | unfold closes_count]; cbn [filter length Nat.add]; lia.
Qed.

Lemma connections_are_balanced_witness :
  option_map (fun r => (opens_count (run_trace r), closes_count (run_trace r)))
    (perform_request 2 redirect_once default_client 0 plain_request)
  = Some (2, 2).
Proof.
  destruct (perform_request 2 redirect_once default_client 0 plain_request)
    as [r|] eqn:E; [|discriminate E].
  destruct (connections_are_balanced 2 redirect_once default_client 0
              plain_request r E) as [Ho Hc].
  cbn [option_map]. rewrite Ho, Hc.
  vm_compute in E. injection E as <-. reflexivity.
Defined.

Lemma partition_parts (c : ascii) (s : string) :
  s = fst (fst (partition c s)) ++ snd (fst (partition c s)) ++ snd (partition c s)
  /\ contains c (fst (fst (partition c s))) = false.
Proof.
  induction s as [|x s [IH1 IH2]]; [split; reflexivity|].
  simpl. destruct (Ascii.eqb_spec x c) as [->|N].
  - split; reflexivity.
  - destruct (partition c s) as [[a m] b]. cbn [fst snd] in *.
    split; [now rewrite IH1 at 1|].
    simpl. apply Ascii.eqb_neq in N. now rewrite N.
Qed.

Lemma rsplit1_parts (c : ascii) (s a b : string) :
  rsplit1 c s = Some (a, b) -> s = a ++ String c b.
Proof.
  revert a b. induction s as [|x s IH]; intros a b; simpl; [discriminate|].
  destruct (rsplit1 c s) as [[a' b']|].
  - intros H. injection H as <- <-. simpl. now rewrite (IH a' b' eq_refl) at 1.
  - destruct (Ascii.eqb_spec x c) as [->|]; [|discriminate].
    intros H. now injection H as <- <-.
Qed.

Lemma contains_prefix (c : ascii) (a b : string) :
  contains c (a ++ b) = false -> contains c a = false.
Proof.
  rewrite contains_append. intros H. now apply orb_false_iff in H as [H _].
Qed.

Lemma splitparams_clean (c : ascii) (url : string) :
  contains c url = false -> contains c (fst (UrlParse.splitparams url)) = false.
Proof.
  intros H. unfold UrlParse.splitparams.
  destruct (rsplit1 "/" url) as [[dir last]|] eqn:E.
  - destruct (contains ";" last); [|exact H].
    apply rsplit1_parts in E. subst url.
    destruct (partition_parts ";" last) as [Hl _].
    destruct (partition ";" last) as [[a m] b]. cbn [fst snd] in *. subst last.
    rewrite !contains_append in H. cbn [contains] in H.
    rewrite !contains_append. cbn [contains].
    repeat (apply orb_false_iff in H as [? H] || apply orb_false_iff in H as [H ?]).
    destruct (Ascii.eqb "/" c); [discriminate|].
    rewrite !contains_append in *.
    repeat match goal with
           | H : _ || _ = false |- _ => apply orb_false_iff in H as [? ?]
           end.
    repeat (apply orb_false_iff; split); assumption || reflexivity.
  - destruct (partition_parts ";" url) as [Hu _].
    destruct (partition ";" url) as [[a m] b]. cbn [fst snd] in *.
    rewrite Hu in H. now apply contains_prefix in H.
Qed.

(** The path that [urlparse] hands back holds no [?]. *)
Lemma urlparse_path_clean (location : string) (new_url : UrlParse.ParseResult) :
  UrlParse.urlparse location = inr new_url ->
  contains "?" (UrlParse.path new_url) = false.
Proof.
  unfold UrlParse.urlparse.
  destruct (let '(s, colon, rest) := partition ":" location in
            if nonempty colon && nonempty s
               && UrlParse.all_chars UrlParse.scheme_char s
            then (lower s, rest) else (EmptyString, location)) as [scheme url].
  destruct (match url with
            | String "/" (String "/" r) => UrlParse.splitnetloc r
            | _ => (EmptyString, url)
            end) as [netloc url1].
  destruct (xorb (contains "[" netloc) (contains "]" netloc)); [discriminate|].
  destruct (partition "#" url1) as [[url2 m2] fragment].
  destruct (partition_parts "?" url2) as [_ Hq].
  destruct (partition "?" url2) as [[url3 m3] query]. cbn [fst] in Hq.
  destruct (existsb (String.eqb scheme) UrlParse.uses_params && contains ";" url3).
  - pose proof (splitparams_clean "?" url3 Hq) as Hs.
    destruct (UrlParse.splitparams url3) as [url4 params].
    intros H. injection H as <-. exact Hs.
  - intros H. injection H as <-. exact Hq.
Qed.

(** [get_connection] looks at the host and the protocol override of a
    request only. *)
Lemma get_connection_ext (self : _HTTPClient) (r1 r2 : Request) :
  req_host r1 = req_host r2 ->
  req_protocol_override r1 = req_protocol_override r2 ->
  get_connection self r1 = get_connection self r2.
Proof.
  intros Hh Ho. unfold get_connection, select_connection, effective_protocol.
  now rewrite Hh, Ho.
Qed.

(** X15.  What a redirect does to the request: the host becomes the host
    name of the [location] (without port or user information), and the path
    becomes the encoded path of the [location] followed by the query pairs
    the request already had.  The query string and the fragment of the
    [location] are dropped, the query list is unchanged, and the scheme and
    the port of the [location] play no part in the choice of the next
    connection. *)
Theorem redirect_reattaches_query
    (self : _HTTPClient) (hs : list (string * string)) (request : Request)
    (location : string) (new_url : UrlParse.ParseResult) :
  dict_get "location" hs = Some location ->
  UrlParse.urlparse location = inr new_url ->
  exists request',
    redirect_request hs request = ([], inr request')
    /\ req_host request' = UrlParse.hostname new_url
    /\ req_path request'
       = url_quote (UrlParse.path new_url) SAFE
           ++ query_suffix (present (req_query request))
    /\ req_query request' = req_query request
    /\ get_connection self request'
       = get_connection self (set_host (UrlParse.hostname new_url) request).
Proof.
  intros Hloc Hurl.
  exists (redirected request (UrlParse.hostname new_url) (UrlParse.path new_url)).
  split; [exact (redirect_request_parsed _ _ _ _ Hloc Hurl)|].
  unfold redirected.
  set (r0 := set_path (UrlParse.path new_url)
                      (set_host (UrlParse.hostname new_url) request)).
  destruct (update_keeps_fields r0) as (_ & Hh & _ & _ & Ho).
  pose proof (update_request_uri_query_eq r0) as F.
  rewrite update_returns_fields in F.
  unfold path_base, path_query in F.
  assert (Hc : contains "?" (req_path r0) = false)
    by exact (urlparse_path_clean _ _ Hurl).
  rewrite (partition_absent "?" _ Hc) in F. cbn [fst snd] in F.
  change (inline_pairs EmptyString) with (@nil pair_t) in F.
  rewrite app_nil_r in F.
  assert (Fp := f_equal fst F). assert (Fq := f_equal snd F).
  cbn [fst snd] in Fp, Fq.
  repeat split.
  - exact Hh.
  - exact Fp.
  - exact Fq.
  - apply get_connection_ext; [exact Hh | exact Ho].
Qed.

Lemma redirect_reattaches_query_witness :
  exists request',
    redirect_request
      [("location", "http://User@Host2:8080/new path;v=1?drop=me#frag")]
      (fst (_update_request_uri_query example_request))
    = ([], inr request')
    /\ req_host request' = Some "host2"
    /\ req_path request' = "/new%20path?y=2&x=1"
    /\ req_query request' = [("y", Some "2"); ("x", Some "1")].
Proof.
  destruct (redirect_reattaches_query default_client
              [("location", "http://User@Host2:8080/new path;v=1?drop=me#frag")]
              (fst (_update_request_uri_query example_request))
              "http://User@Host2:8080/new path;v=1?drop=me#frag"
              (UrlParse.mkParse "http" "User@Host2:8080" "/new path" "v=1"
                                "drop=me" "frag")
              eq_refl eq_refl)
    as (r' & Hr & Hh & Hp & Hq & _).
  exists r'. repeat split; assumption.
Defined.

(** X16.  Every status below 300 counts as a success, not only those from
    200 on: an informational status (or any lower number) is returned as a
    response, after one hop. *)
Theorem status_below_300_is_returned
    (fuel : nat) (T : Transport) (self : _HTTPClient) (next : nat)
    (request : Request) (connection : Connection) (resp : RawResponse) :
  get_connection self request = inr connection ->
  tr_behaviour T next request = working resp ->
  (resp_status resp < 300)%Z ->
  option_map (fun r => (run_next r, run_outcome r))
    (perform_request (S fuel) T self next request)
  = Some (S next,
          inr (mkResponse (resp_status resp) (resp_reason resp)
                          (lower_names (resp_headers resp))
                          (declared_body resp))).
Proof.
  intros G Hb Hlt. cbn [perform_request].
  rewrite G, (attempt_working_eq _ _ _ _ _ _ Hb).
  unfold hop_outcome.
  replace (resp_status resp =? 307)%Z with false by (symmetry; apply Z.eqb_neq; lia).
  replace (resp_status resp >=? 300)%Z with false
    by (symmetry; rewrite Z.geb_leb; apply Z.leb_gt; lia).
  reflexivity.
Qed.

Lemma status_below_300_is_returned_witness :
  option_map (fun r => (run_next r, run_outcome r))
    (perform_request 1
       (always (working (mkRaw 100 "Continue" [] (Some 0%Z) EmptyString)))
       default_client 0 plain_request)
  = Some (1, inr (mkResponse 100 "Continue" [] None)).
Proof.
  apply (status_below_300_is_returned 0
           (always (working (mkRaw 100 "Continue" [] (Some 0%Z) EmptyString)))
           default_client 0 plain_request plain_connection
           (mkRaw 100 "Continue" [] (Some 0%Z) EmptyString));
    [reflexivity | reflexivity | simpl; lia].
Defined.

Lemma dict_get_last (key : string) (pre post : list (string * string))
    (name value : string) :
  dict_get key post = None ->
  name = key ->
  dict_get key (pre ++ (name, value) :: post) = Some value.
Proof.
  intros Hpost ->. induction pre as [|[k v] pre IH].
  - simpl. now rewrite Hpost, String.eqb_refl.
  - simpl. simpl in IH. now rewrite IH.
Qed.

Lemma dict_get_absent (key : string) (l : list (string * string)) :
  Forall (fun h => fst h <> key) l -> dict_get key l = None.
Proof.
  induction 1 as [|[k v] l Hk _ IH]; [reflexivity|].
  simpl. rewrite IH. simpl in Hk.
  apply String.eqb_neq in Hk. now rewrite Hk.
Qed.

(** X18.  The redirect target is looked up without regard to the case of
    the header name, and when the response carries several such headers the
    last one is used. *)
Theorem last_location_header_wins
    (pre post : list (string * string)) (name value : string) :
  lower name = "location" ->
  Forall (fun h => lower (fst h) <> "location") post ->
  dict_get "location" (lower_names (pre ++ (name, value) :: post)) = Some value.
Proof.
  intros Hname Hpost. unfold lower_names. rewrite map_app. cbn [map fst snd].
  apply dict_get_last; [|exact Hname].
  apply dict_get_absent.
  rewrite Forall_map. cbn [fst]. exact Hpost.
Qed.

Lemma last_location_header_wins_witness :
  dict_get "location"
    (lower_names [("Location", "https://first/"); ("Server", "x");
                  ("LOCATION", "https://second/"); ("Content-Length", "0")])
  = Some "https://second/".
Proof.
  apply (last_location_header_wins
           [("Location", "https://first/"); ("Server", "x")]
           [("Content-Length", "0")] "LOCATION" "https://second/").
  - reflexivity.
  - repeat constructor. discriminate.
Defined.

Lemma truthy_nonempty (v : option string) (c : nat) :
  truthy v = true -> send_ok (EvSend c v).
Proof.
  destruct v as [[|x s]|]; simpl; intros H; try discriminate H.
  discriminate.
Qed.

Lemma attempt_sends (T : Transport) (self : _HTTPClient) (c : nat)
    (connection : Connection) (request : Request) :
  Forall send_ok (fst (attempt T self c connection request)).
Proof.
  unfold attempt.
  repeat (apply bind_trace; [|intros ?]);
    unfold send_request_headers, send_request_body, read_body;
    repeat match goal with
           | |- Forall _ (fst (if truthy ?v then _ else _)) =>
               let E := fresh "E" in
               destruct (truthy v) eqn:E;
               [apply call_trace; now apply truthy_nonempty|]
           | |- Forall _ (fst (if ?x then _ else _)) => destruct x
           | |- Forall _ (fst (match ?x with Some _ => _ | None => _ end)) => destruct x
           | |- Forall _ (fst (bind _ _)) => apply bind_trace; [|intros ?]
           | |- Forall _ (fst (transport_call _ _ _)) => apply call_trace; exact I
           | |- Forall _ (fst (ret _)) => apply ret_trace
           | |- Forall _ (fst (raise _)) => apply raise_trace
           | |- Forall _ (fst (redirect_request _ _)) =>
               rewrite redirect_request_silent; constructor
           end.
Qed.

(** X19.  Over a whole execution, redirects included, [send] is given
    either a body that is not empty or [None]: an empty byte string is
    never written. *)
Theorem empty_body_is_never_sent
    (fuel : nat) (T : Transport) (self : _HTTPClient) (next : nat)
    (request : Request) (r : Run) :
  perform_request fuel T self next request = Some r ->
  Forall send_ok (run_trace r).
Proof.
  intros H. apply perform_request_runs in H.
  induction H as [next request e G
                 |next request connection t e G A
                 |next request connection t response G A
                 |next request connection t request' r G A R IH];
    cbn [run_trace]; [constructor| | |];
    pose proof (attempt_sends T self next connection request) as Ht;
    rewrite A in Ht; cbn [fst] in Ht;
    (constructor; [exact I|]);
    repeat (apply Forall_app; split); try assumption;
    repeat constructor.
Qed.

Lemma empty_body_is_never_sent_witness :
  Forall send_ok
    [EvOpen 0 (mkConnection
                 (RequestsConnection (Some "management.core.windows.net") "https"
                                     (session_handle 0) 65) None);
     EvPutRequest 0 "PUT" "/a";
     EvEndHeaders 0 ["PUT /a HTTP/1.1"; "Accept-Encoding: identity";
                     "User-Agent: azure-sdk"];
     EvSend 0 None; EvGetResponse 0; EvRead 0 (Some 3%Z); EvClose 0].
Proof.
  exact (empty_body_is_never_sent 1 (always (working ok_response)) session_client 0
           (mkRequest "PUT" (Some "management.core.windows.net") "/a" [] []
                      (Some EmptyString) None)
           _ eq_refl).
Defined.
